(** * Verification of the ChromaDB export pipeline

    Shallow embedding of [scripts/export-chromadb.py]: the normaliser
    [normalize_projection], the projection driver [compute_projections]
    and the exporter [export_chromadb], followed by the properties the
    specification states about them. *)

From Stdlib Require Import QArith Qminmax Qround Qpower Lqa ZArith Lia.
From stdpp Require Import base option list strings gmap pretty.

(** ** Floating-point numbers

    NumPy arrays hold IEEE floats: a finite value, which is a rational, an
    infinity, or NaN.  An arithmetic operation on finite values computes the
    exact rational result, rounds it with [rnd], and overflows to an
    infinity when the rounded result lies beyond [fmax], the largest finite
    value of the format.  The format is a parameter; [binary64] below is
    NumPy's [float64].  The two zeros of IEEE are one value here. *)

Inductive float :=
| Fin (q : Q)
| PInf
| NInf
| NaN.

Class Rounding := {
  rnd : Q -> Q;
  fmax : Q
}.

(** What the proofs use of a format: rounding respects equality of
    rationals and is monotone, the halves of the integers up to 1024 (0, 1,
    0.5, 20.0, ...) are values of the format and within its range.
    [binary64_laws] proves this of binary64. *)
Class RoundingLaws (R : Rounding) : Prop := {
  rnd_proper : forall x y, (x == y)%Q -> (rnd x == rnd y)%Q;
  rnd_mono : forall x y, (x <= y)%Q -> (rnd x <= rnd y)%Q;
  rnd_half_int : forall z : Z, (Z.abs z <= 1024)%Z -> (rnd (z # 2) == z # 2)%Q;
  fmax_half_int : (512 <= fmax)%Q
}.

(** The largest finite binary64 value, (2 - 2^-52) * 2^1023. *)
Definition fmax64 : Q := inject_Z ((2 ^ 53 - 1) * 2 ^ 971).

(** Exact arithmetic in the range of binary64: no rounding at all.  Used to
    show results as plain fractions. *)
Definition exact_rounding : Rounding := {| rnd := fun x => x; fmax := fmax64 |}.

(** binary64, the format of NumPy's [float64]: round to nearest, ties to
    even, with subnormals.  [ilog2 a] is the exponent [e] with
    [2^e <= a < 2^(e+1)] of a positive rational; a positive value is rounded
    to the nearest multiple of the unit in the last place of its binade,
    2^(e-52), and of 2^(-1074) below the normal range. *)
Definition ilog2 (a : Q) : Z :=
  let k := (Z.log2 (Qnum a) - Z.log2 (Zpos (Qden a)))%Z in
  if Qle_bool (Qpower 2 k) a then k else (k - 1)%Z.

Definition round_half_even (m : Q) : Z :=
  let f := Qfloor m in
  match (m - inject_Z f ?= 1 # 2)%Q with
  | Lt => f
  | Gt => (f + 1)%Z
  | Eq => if Z.even f then f else (f + 1)%Z
  end.

Definition round_positive (a : Q) : Q :=
  let e := Z.max (-1022) (ilog2 a) in
  let ulp := Qpower 2 (e - 52) in
  (inject_Z (round_half_even (a / ulp)) * ulp)%Q.

Definition rnd_binary64 (q : Q) : Q :=
  match (q ?= 0)%Q with
  | Eq => 0%Q
  | Gt => round_positive q
  | Lt => (- round_positive (- q))%Q
  end.

Definition binary64 : Rounding := {| rnd := rnd_binary64; fmax := fmax64 |}.

Section Float.
Context {R : Rounding}.

(** The rounded result, or the infinity it overflows to. *)
Definition overflow (r : Q) : float :=
  if Qle_bool r fmax
  then if Qle_bool (- fmax) r then Fin r else NInf
  else PInf.

Definition round (q : Q) : float := overflow (rnd q).

(** [x - y] *)
Definition fsub (x y : float) : float :=
  match x, y with
  | NaN, _ | _, NaN => NaN
  | Fin a, Fin b => round (a - b)
  | PInf, PInf | NInf, NInf => NaN
  | PInf, _ => PInf
  | NInf, _ => NInf
  | Fin _, PInf => NInf
  | Fin _, NInf => PInf
  end.

(** The sign of a value that is not NaN: [true] when negative. *)
Definition negative (x : float) : bool :=
  match x with
  | Fin q => negb (Qle_bool 0 q)
  | NInf => true
  | _ => false
  end.

Definition inf_of_sign (neg : bool) : float := if neg then NInf else PInf.

(** [x / y] *)
Definition fdiv (x y : float) : float :=
  match x, y with
  | NaN, _ | _, NaN => NaN
  | Fin a, Fin b =>
      if Qeq_bool b 0
      then if Qeq_bool a 0 then NaN else inf_of_sign (negative x)
      else round (a / b)
  | Fin _, _ => Fin 0
  | _, Fin _ => inf_of_sign (xorb (negative x) (negative y))
  | _, _ => NaN
  end.

(** [x * y] *)
Definition fmul (x y : float) : float :=
  match x, y with
  | NaN, _ | _, NaN => NaN
  | Fin a, Fin b => round (a * b)
  | Fin a, _ =>
      if Qeq_bool a 0 then NaN else inf_of_sign (xorb (negative x) (negative y))
  | _, Fin b =>
      if Qeq_bool b 0 then NaN else inf_of_sign (xorb (negative x) (negative y))
  | _, _ => inf_of_sign (xorb (negative x) (negative y))
  end.

End Float.

(** The minimum and maximum NumPy reduces with: NaN wins. *)
Definition fmin (x y : float) : float :=
  match x, y with
  | NaN, _ | _, NaN => NaN
  | NInf, _ | _, NInf => NInf
  | PInf, z | z, PInf => z
  | Fin a, Fin b => Fin (Qmin a b)
  end.

Definition fmax_of (x y : float) : float :=
  match x, y with
  | NaN, _ | _, NaN => NaN
  | PInf, _ | _, PInf => PInf
  | NInf, z | z, NInf => z
  | Fin a, Fin b => Fin (Qmax a b)
  end.

(** [x == y] of two floats: NaN equals nothing. *)
Definition feqb (x y : float) : bool :=
  match x, y with
  | Fin a, Fin b => Qeq_bool a b
  | PInf, PInf | NInf, NInf => true
  | _, _ => false
  end.

(** The same value: equal rationals, the same infinity, or NaN both. *)
Definition same_float (x y : float) : Prop :=
  match x, y with
  | Fin a, Fin b => (a == b)%Q
  | PInf, PInf | NInf, NInf | NaN, NaN => True
  | _, _ => False
  end.

(** The order of the values; NaN is not ordered. *)
Definition fle (x y : float) : Prop :=
  match x, y with
  | NaN, _ | _, NaN => False
  | NInf, _ | _, PInf => True
  | Fin a, Fin b => (a <= b)%Q
  | _, _ => False
  end.

(** Neither an infinity nor NaN. *)
Definition finite (x : float) : Prop :=
  match x with
  | Fin _ => True
  | _ => False
  end.

(** A finite value between [lo] and [hi]. *)
Definition within (lo hi : Q) (x : float) : Prop :=
  match x with
  | Fin q => (lo <= q <= hi)%Q
  | _ => False
  end.

(** A matrix of finite values as an array holds it. *)
Definition to_floats (m : list (list Q)) : list (list float) :=
  fmap (M := list) (fmap (M := list) Fin) m.

(** [map] over Python lists and NumPy axes is stdpp's [fmap] at lists. *)
Abbreviation lmap := (fmap (M:=list)) (only parsing).

(** ** Data model *)

(** A metadata value: ChromaDB metadata maps strings to scalars. *)
Inductive scalar :=
| SStr (s : string)
| SInt (z : Z)
| SFloat (q : Q)
| SBool (b : bool).

(** One entry of [output["documents"]].  The text and the metadata of a
    stored item may be [None], which [json.dump] writes as [null]. *)
Record Document := mkDocument {
  doc_id : string;
  doc_text : option string;
  doc_embedding : list Q;
  doc_metadata : option (gmap string scalar)
}.

(** [output["metadata"]]. *)
Record ExportMetadata := mkExportMetadata {
  meta_name : string;
  meta_embedding_model : string;
  meta_embedding_dim : nat;
  meta_count : nat
}.

(** The dict [output].  The keys "metadata" and "documents" are always
    there; "projections" is added by an assignment that may not run, so its
    presence is an [option]. *)
Record CorpusExport := mkCorpusExport {
  out_metadata : ExportMetadata;
  out_documents : list Document;
  out_projections : option (gmap string (list (list float)))
}.

(** ** Python runtime: exceptions, exit, state *)

Inductive exn :=
| ValueError (msg : string)
| TypeError (msg : string)
| ImportError (msg : string)
| NotFoundError (msg : string).

(** [str(e)] *)
Definition exn_str (e : exn) : string :=
  match e with
  | ValueError m | TypeError m | ImportError m | NotFoundError m => m
  end.

(** What a library call gives back: a value or a raised exception. *)
Inductive pyresult (A : Type) :=
| Ok (a : A)
| Err (e : exn).
Arguments Ok {A} a.
Arguments Err {A} e.

(** A NumPy array, of one or two dimensions. *)
Inductive ndarray :=
| Arr1 (v : list float)
| Arr2 (m : list (list float)).

(** Arrays are objects: names hold references into a heap. *)
Definition loc := nat.

(** The state a run acts on: the arrays allocated so far, the lines printed
    so far, and the files written by [json.dump], each represented by the
    value that was serialised.  Of the file system nothing else is kept:
    the directories [mkdir] creates, the files of the store itself and the
    failures of the operating system are outside the model. *)
Record world := mkWorld {
  heap : list ndarray;
  stdout : list string;
  files : gmap string CorpusExport
}.

Definition set_heap (w : world) (h : list ndarray) : world :=
  mkWorld h (stdout w) (files w).
Definition set_stdout (w : world) (o : list string) : world :=
  mkWorld (heap w) o (files w).
Definition set_files (w : world) (f : gmap string CorpusExport) : world :=
  mkWorld (heap w) (stdout w) f.

(** How a computation ends: normally, by an exception that propagates, or
    by [exit(status)]. *)
Inductive outcome (A : Type) :=
| Return (a : A)
| Raise (e : exn)
| SystemExit (status : Z).
Arguments Return {A} a.
Arguments Raise {A} e.
Arguments SystemExit {A} status.

Definition M (A : Type) : Type := world -> outcome A * world.

Definition ret {A} (a : A) : M A := fun w => (Return a, w).

Definition bind {A B} (m : M A) (k : A -> M B) : M B :=
  fun w =>
    match m w with
    | (Return a, w') => k a w'
    | (Raise e, w') => (Raise e, w')
    | (SystemExit s, w') => (SystemExit s, w')
    end.

Notation "x <~ m ; k" := (bind m (fun x => k))
  (at level 100, m at next level, right associativity).
Notation "m ;; k" := (bind m (fun _ => k))
  (at level 100, right associativity).

Definition raise {A} (e : exn) : M A := fun w => (Raise e, w).

(** [exit(status)] *)
Definition exit {A} (status : Z) : M A := fun w => (SystemExit status, w).

(** [try: body except Exception as e: handler(e)].  [exit] raises
    [SystemExit], which is not an [Exception] and passes through. *)
Definition try_except {A} (body : M A) (handler : exn -> M A) : M A :=
  fun w =>
    match body w with
    | (Raise e, w') => handler e w'
    | r => r
    end.

Definition lift {A} (r : pyresult A) : M A :=
  match r with
  | Ok a => ret a
  | Err e => raise e
  end.

(** [print(line)] *)
Definition print (line : string) : M unit :=
  fun w => (Return tt, set_stdout w (stdout w ++ [line])).

(** Allocation of a fresh array. *)
Definition alloc (a : ndarray) : M loc :=
  fun w => (Return (length (heap w)), set_heap w (heap w ++ [a])).

Definition load (l : loc) : M ndarray :=
  fun w =>
    match heap w !! l with
    | Some a => (Return a, w)
    | None => (Raise (ValueError "dangling array reference"), w)
    end.

(** In-place update of the array at [l]. *)
Definition store (l : loc) (a : ndarray) : M unit :=
  fun w => (Return tt, set_heap w (<[l := a]> (heap w))).

(** ** NumPy operations used by the normaliser *)

Section NumPy.
Context {R : Rounding}.

(** [a.min(axis=0)] and [a.max(axis=0)] of a 2-D array: the reduction of
    the rows, column by column, into a fresh 1-D array.  An array without
    rows has no minimum: NumPy raises [ValueError], naming the reduction.
    On a 1-D array the reduction yields a scalar, and the item assignment of
    line 93 then fails with [TypeError]. *)
Definition reduce_axis0 (name : string) (f : float -> float -> float)
    (points : loc) : M loc :=
  a <~ load points;
  match a with
  | Arr2 (r :: rs) => alloc (Arr1 (foldl (zip_with f) r rs))
  | Arr2 [] =>
      raise (ValueError ("zero-size array to reduction operation " +:+ name
                         +:+ " which has no identity"))
  | Arr1 [] =>
      raise (ValueError ("zero-size array to reduction operation " +:+ name
                         +:+ " which has no identity"))
  | Arr1 (_ :: _) =>
      raise (TypeError "'numpy.float64' object does not support item assignment")
  end.

Definition np_min_axis0 : loc -> M loc := reduce_axis0 "minimum" fmin.
Definition np_max_axis0 : loc -> M loc := reduce_axis0 "maximum" fmax_of.

Definition same_width {A B} (v : list A) (m : list (list B)) : bool :=
  forallb (fun r => Nat.eqb (length r) (length v)) m.

(** [a op b] for arrays: element by element on two vectors of one length,
    row by row when a matrix meets a vector as long as its rows (the
    broadcasting the normaliser relies on).  Other shapes do not occur in
    the normaliser; they are rejected with NumPy's broadcast error.  The
    result is a fresh array. *)
Definition np_binop (op : float -> float -> float) (x y : loc) : M loc :=
  a <~ load x;
  b <~ load y;
  match a, b with
  | Arr1 u, Arr1 v =>
      if Nat.eqb (length u) (length v)
      then alloc (Arr1 (zip_with op u v))
      else raise (ValueError "operands could not be broadcast together")
  | Arr2 m, Arr1 v =>
      if same_width v m
      then alloc (Arr2 (lmap (fun r => zip_with op r v) m))
      else raise (ValueError "operands could not be broadcast together")
  | _, _ => raise (ValueError "operands could not be broadcast together")
  end.

Definition np_subtract : loc -> loc -> M loc := np_binop fsub.
Definition np_divide : loc -> loc -> M loc := np_binop fdiv.

(** [a - c] for a scalar [c]: a fresh array. *)
Definition np_subtract_scalar (x : loc) (c : float) : M loc :=
  a <~ load x;
  match a with
  | Arr1 u => alloc (Arr1 (lmap (fun t => fsub t c) u))
  | Arr2 m => alloc (Arr2 (lmap (fmap (fun t => fsub t c)) m))
  end.

Definition mask_eq (c v : float) (t : float) : float :=
  if feqb t c then v else t.

(** [a[a == c] = v]: overwrites the entries of [a] equal to [c], in place. *)
Definition np_setitem_eq (x : loc) (c v : float) : M unit :=
  a <~ load x;
  match a with
  | Arr1 u => store x (Arr1 (lmap (mask_eq c v) u))
  | Arr2 m => store x (Arr2 (lmap (fmap (mask_eq c v)) m))
  end.

(** [a *= c]: multiplies in place. *)
Definition np_imul_scalar (x : loc) (c : float) : M unit :=
  a <~ load x;
  match a with
  | Arr1 u => store x (Arr1 (lmap (fun t => fmul t c) u))
  | Arr2 m => store x (Arr2 (lmap (fmap (fun t => fmul t c)) m))
  end.

(** [a.tolist()] of a 2-D array: a list of rows. *)
Definition np_tolist (x : loc) : M (list (list float)) :=
  a <~ load x;
  match a with
  | Arr2 m => ret m
  | Arr1 _ => raise (TypeError "not a list of rows")
  end.

(** [len(a)]: the size of the first axis. *)
Definition np_len (x : loc) : M nat :=
  a <~ load x;
  match a with
  | Arr1 u => ret (length u)
  | Arr2 m => ret (length m)
  end.

(** ** The normaliser (lines 87-98) *)

(** The default of the parameter [scale]. *)
Definition default_scale : Q := 40.

Definition normalize_projection (points : loc) (scale : Q) : M (list (list float)) :=
  min_vals <~ np_min_axis0 points;
  max_vals <~ np_max_axis0 points;
  ranges <~ np_subtract max_vals min_vals;
  np_setitem_eq ranges (Fin 0) (Fin 1);;
  centered <~ np_subtract points min_vals;
  unit_box <~ np_divide centered ranges;
  normalized <~ np_subtract_scalar unit_box (Fin (1 # 2));
  np_imul_scalar normalized (Fin scale);;
  np_tolist normalized.

End NumPy.

(** [np.array(rows)]: a fresh 2-D array when the rows have one length, the
    empty 1-D array for no rows, [ValueError] for ragged rows.  The values
    of the store are finite. *)
Definition np_array (rows : list (list Q)) : M loc :=
  match rows with
  | [] => alloc (Arr1 [])
  | r :: _ =>
      if same_width r rows
      then alloc (Arr2 (to_floats rows))
      else raise (ValueError "setting an array element with a sequence: inhomogeneous shape")
  end.

(** ** External collaborators *)

(** What [collection.get(include=[...])] returns: [ids] is always there,
    the other three fields may be [None], and so may the text and the
    metadata of a single item. *)
Record GetResult := mkGetResult {
  ids : list string;
  embeddings : option (list (list Q));
  documents : option (list (option string));
  metadatas : option (list (option (gmap string scalar)))
}.

(** A collection handle.  [coll_get None] is the call without [limit],
    [coll_get (Some n)] the call with [limit=n]. *)
Record Collection := mkCollection {
  coll_name : string;
  coll_count : nat;
  coll_get : option Z -> pyresult GetResult
}.

Record Client := mkClient {
  list_collections : list Collection
}.

(** [client.get_collection(name)]: raises when no collection has the name. *)
Definition get_collection (client : Client) (name : string) : pyresult Collection :=
  match find (fun c => String.eqb (coll_name c) name) (list_collections client) with
  | Some c => Ok c
  | None => Err (NotFoundError ("Collection [" +:+ name +:+ "] does not exist"))
  end.

(** The libraries the script imports.  [PersistentClient] opens the store
    at a path; what opening does to the files of the store is outside the
    model.  The projection algorithms are taken as they are, as functions
    from the input matrix to the projected matrix that may raise; their
    arguments are the keyword arguments of the constructors, in the order of
    the source.  [file_size_mb] renders the size of the written file in MB
    with one decimal. *)
Record Libraries := mkLibraries {
  PersistentClient : string -> Client;
  PCA_fit_transform :
    forall (n_components : nat) (random_state : Z),
      list (list float) -> pyresult (list (list float));
  UMAP_fit_transform :
    forall (n_components n_neighbors : nat) (min_dist : Q) (metric : string)
           (random_state : Z),
      list (list float) -> pyresult (list (list float));
  TSNE_fit_transform :
    forall (n_components : nat) (perplexity : Z) (random_state : Z)
           (max_iter : nat),
      list (list float) -> pyresult (list (list float));
  file_size_mb : CorpusExport -> string
}.

(** [repr] of a list of strings, as [print] shows it. *)
Definition py_repr_list (l : list string) : string :=
  "[" +:+ String.concat ", " (lmap (fun s => "'" +:+ s +:+ "'") l) +:+ "]".

(** [float(x)] of a float is the float. *)
Definition py_float (x : Q) : Q := x.

(** Truth value of an [int | None]: [None] and [0] are false. *)
Definition truthy (limit : option Z) : bool :=
  match limit with
  | None => false
  | Some n => negb (Z.eqb n 0)
  end.

Section Pipeline.
Context {R : Rounding} (L : Libraries).

(** [model.fit_transform(embeddings)]: the library reads the array behind
    the reference and returns a fresh array. *)
Definition fit_transform (algorithm : list (list float) -> pyresult (list (list float)))
    (embeddings : loc) : M loc :=
  a <~ load embeddings;
  match a with
  | Arr2 X => Y <~ lift (algorithm X); alloc (Arr2 Y)
  | Arr1 _ => raise (ValueError "Expected 2D array, got 1D array instead")
  end.

(** Line 73. *)
Definition perplexity_for (n_samples : nat) : Z :=
  Z.min 30 (Z.max 5 (Z.of_nat n_samples / 5)).

(** ** The projection driver (lines 42-84) *)
Definition compute_projections (embeddings : loc)
    : M (gmap string (list (list float))) :=
  n_samples <~ np_len embeddings;
  print ("Computing projections for " +:+ pretty n_samples +:+ " documents...");;
  let projections : gmap string (list (list float)) := ∅ in
  print "  Computing PCA...";;
  pca_result <~ fit_transform (PCA_fit_transform L 3 42) embeddings;
  pca <~ normalize_projection pca_result default_scale;
  let projections := <["pca" := pca]> projections in
  print "  PCA done.";;
  print "  Computing UMAP...";;
  umap_result <~ fit_transform (UMAP_fit_transform L 3 15 (1 # 10) "cosine" 42) embeddings;
  umap <~ normalize_projection umap_result default_scale;
  let projections := <["umap" := umap]> projections in
  print "  UMAP done.";;
  print "  Computing t-SNE (this may take a while)...";;
  let perplexity := perplexity_for n_samples in
  tsne_result <~ fit_transform (TSNE_fit_transform L 3 perplexity 42 1000) embeddings;
  tsne <~ normalize_projection tsne_result default_scale;
  let projections := <["tsne" := tsne]> projections in
  print "  t-SNE done.";;
  ret projections.

(** ** The exporter (lines 101-182) *)

(** [json.dump(output, f)] into the file at [path] (lines 175-179).  The
    write is taken to succeed; the directories created for it are not
    recorded. *)
Definition write_json (path : string) (output : CorpusExport) : M unit :=
  fun w => (Return tt, set_files w (<[path := output]> (files w))).

(** The list comprehension of lines 157-165.  The defaults are for the
    positions a list does not have; a [None] a list holds is kept. *)
Definition build_documents (data_ids : list string)
    (documents : list (option string)) (embeddings : list (list Q))
    (metadatas : list (option (gmap string scalar))) : list Document :=
  imap (fun i id =>
          mkDocument id
            (default (Some "") (documents !! i))
            (default [] (lmap py_float <$> embeddings !! i))
            (default (Some ∅) (metadatas !! i)))
       data_ids.

(** [collection.get(...)] as lines 123-129 call it. *)
Definition fetch (collection : Collection) (limit : option Z) : pyresult GetResult :=
  if truthy limit
  then coll_get collection limit
  else coll_get collection None.

(** Lines 131-182: what [export_chromadb] does with the fetched [data]. *)
Definition export_fetched (output_file : string) (skip_projections : bool)
    (data : GetResult) : M unit :=
  let embeddings := default [] (embeddings data) in
  let documents := default [] (documents data) in
  let metadatas := default [] (metadatas data) in
  let embedding_dim :=
    match embeddings with
    | e0 :: _ => length e0
    | [] => 0
    end in
  embeddings_array <~ np_array embeddings;
  let output :=
    mkCorpusExport
      (mkExportMetadata "Claude Memory" "sentence-transformers/all-mpnet-base-v2"
         embedding_dim (length (ids data)))
      (build_documents (ids data) documents embeddings metadatas)
      None in
  output <~
    (if negb skip_projections && (0 <? length embeddings)
     then
       projections <~ compute_projections embeddings_array;
       ret (mkCorpusExport (out_metadata output) (out_documents output)
              (Some projections))
     else
       print "Skipping projection computation.";;
       ret output);
  write_json output_file output;;
  print ("Exported to " +:+ output_file +:+ " (" +:+ file_size_mb L output +:+ " MB)").

(** Lines 110-131. *)
Definition export_chromadb (chroma_path collection_name output_file : string)
    (limit : option Z) (skip_projections : bool) : M unit :=
  print ("Connecting to ChromaDB at " +:+ chroma_path +:+ "...");;
  let client := PersistentClient L chroma_path in
  collection <~
    try_except (lift (get_collection client collection_name))
      (fun e =>
         print ("Error: Could not get collection '" +:+ collection_name
                +:+ "': " +:+ exn_str e);;
         print ("Available collections: "
                +:+ py_repr_list (lmap coll_name (list_collections client)));;
         exit 1);
  print ("Found collection '" +:+ collection_name +:+ "' with "
         +:+ pretty (coll_count collection) +:+ " documents");;
  data <~ lift (fetch collection limit);
  print ("Exporting " +:+ pretty (length (ids data)) +:+ " documents...");;
  export_fetched output_file skip_projections data.

(** ** The script: imports, then [main] (lines 22-39, 185-228) *)

Record Installed := mkInstalled {
  has_chromadb : bool;
  has_sklearn : bool;
  has_umap : bool
}.

(** [try: import m except ImportError: print(msg); exit(1)] *)
Definition import_or_exit (present : bool) (msg : string) : M unit :=
  try_except
    (if present then ret tt else raise (ImportError "No module"))
    (fun _ => print msg;; exit 1).

Definition import_dependencies (i : Installed) : M unit :=
  import_or_exit (has_chromadb i)
    "Error: chromadb not installed. Run: pip install chromadb";;
  import_or_exit (has_sklearn i)
    "Error: scikit-learn not installed. Run: pip install scikit-learn";;
  import_or_exit (has_umap i)
    "Error: umap-learn not installed. Run: pip install umap-learn".

(** The parsed command line. *)
Record Args := mkArgs {
  arg_chroma_path : string;
  arg_collection : string;
  arg_output : string;
  arg_limit : option Z;
  arg_skip_projections : bool
}.

Definition main (args : Args) : M unit :=
  export_chromadb (arg_chroma_path args) (arg_collection args) (arg_output args)
    (arg_limit args) (arg_skip_projections args).

Definition script (i : Installed) (args : Args) : M unit :=
  import_dependencies i;;
  main args.

End Pipeline.

(** The status the interpreter exits with: 0 after a normal end, 1 after an
    uncaught exception, the argument of [exit] otherwise. *)
Definition exit_status {A} (o : outcome A) : Z :=
  match o with
  | Return _ => 0
  | Raise _ => 1
  | SystemExit s => s
  end.

(** ** The normaliser as a function of the matrix

    What [normalize_projection] computes from the rows [r :: rs] of its
    argument, written without the heap; [normalize_projection_run] relates
    the two. *)

Section NormaliserValues.
Context {R : Rounding}.

Definition col_min (r : list float) (rs : list (list float)) : list float :=
  foldl (zip_with fmin) r rs.
Definition col_max (r : list float) (rs : list (list float)) : list float :=
  foldl (zip_with fmax_of) r rs.

(** [ranges] after line 93. *)
Definition col_ranges (r : list float) (rs : list (list float)) : list float :=
  lmap (mask_eq (Fin 0) (Fin 1)) (zip_with fsub (col_max r rs) (col_min r rs)).

Definition centered_rows (r : list float) (rs : list (list float)) : list (list float) :=
  lmap (fun row => zip_with fsub row (col_min r rs)) (r :: rs).
Definition unit_rows (r : list float) (rs : list (list float)) : list (list float) :=
  lmap (fun row => zip_with fdiv row (col_ranges r rs)) (centered_rows r rs).
Definition shifted_rows (r : list float) (rs : list (list float)) : list (list float) :=
  lmap (fmap (fun t => fsub t (Fin (1 # 2)))) (unit_rows r rs).
Definition normalized_rows (scale : Q) (r : list float) (rs : list (list float))
    : list (list float) :=
  lmap (fmap (fun t => fmul t (Fin scale))) (shifted_rows r rs).

(** One entry, followed through lines 92-96: [x] is the entry, [mn] and
    [mx] the minimum and maximum of its column. *)
Definition normalized_entry (scale : Q) (x mn mx : float) : float :=
  fmul (fsub (fdiv (fsub x mn) (mask_eq (Fin 0) (Fin 1) (fsub mx mn))) (Fin (1 # 2)))
    (Fin scale).

(** The same in rationals, for finite values when nothing overflows: the
    divisor of line 95, the entry after line 95, the entry after line 96. *)
Definition rational_range (mn mx : Q) : Q :=
  let range := rnd (mx - mn) in
  if Qeq_bool range 0 then 1%Q else range.

Definition rational_unit (x mn mx : Q) : Q :=
  rnd (rnd (x - mn) / rational_range mn mx).

Definition rational_entry (scale x mn mx : Q) : Q :=
  rnd (rnd (rational_unit x mn mx - (1 # 2)) * scale).

(** [max_vals - min_vals] of line 92, before the zero ranges are replaced. *)
Definition axis_ranges (pts : list (list float)) : list float :=
  match pts with
  | r :: rs => zip_with fsub (col_max r rs) (col_min r rs)
  | [] => []
  end.

(** The arrays a successful call leaves behind, in allocation order. *)
Definition normalize_garbage (scale : Q) (r : list float) (rs : list (list float))
    : list ndarray :=
  [ Arr1 (col_min r rs); Arr1 (col_max r rs); Arr1 (col_ranges r rs);
    Arr2 (centered_rows r rs); Arr2 (unit_rows r rs);
    Arr2 (normalized_rows scale r rs) ].

End NormaliserValues.

(** The lines a run prints before it assembles the output. *)
Definition export_preamble (chroma_path collection_name : string)
    (c : Collection) (data : GetResult) : list string :=
  [ "Connecting to ChromaDB at " +:+ chroma_path +:+ "...";
    "Found collection '" +:+ collection_name +:+ "' with "
      +:+ pretty (coll_count c) +:+ " documents";
    "Exporting " +:+ pretty (length (ids data)) +:+ " documents..." ].

(** ** What the claims assume of the libraries *)

(** [X.shape[1]] *)
Definition n_features {A} (X : list (list A)) : nat :=
  match X with
  | r :: _ => length r
  | [] => 0
  end.

(** The shape contract of [fit_transform]: one output row for each input
    row, in order. *)
Definition keeps_rows (algorithm : list (list float) -> pyresult (list (list float))) : Prop :=
  forall X Y, algorithm X = Ok Y -> length Y = length X.

(** scikit-learn's argument check in [PCA.fit]: [n_components] must not
    exceed [min(n_samples, n_features)]; otherwise [ValueError]. *)
Definition pca_validates (L : Libraries) : Prop :=
  forall (n_components : nat) (random_state : Z) (X : list (list float)),
    Nat.min (length X) (n_features X) < n_components ->
    exists msg, PCA_fit_transform L n_components random_state X = Err (ValueError msg).

(** [clamp(x, lo, hi)], as the specification words it: [lo] below [lo],
    [hi] above [hi], [x] otherwise. *)
Definition clamp (x lo hi : Z) : Z :=
  if (x <? lo)%Z then lo else if (hi <? x)%Z then hi else x.

(** A dependency of the script is not installed. *)
Definition dependency_missing (i : Installed) : Prop :=
  has_chromadb i && has_sklearn i && has_umap i = false.

(** The specification's sentence on a missing collection, with "a distinct
    non-zero status" taken at its word: a status that tells this abort from
    the other aborts of the script, the dependency-missing ones. *)
Definition missing_collection_claim : Prop :=
  forall (R : Rounding) (L : Libraries)
         (chroma_path collection_name output_file : string)
         (limit : option Z) (skip_projections : bool) (w : world),
    collection_name ∉ coll_name <$> list_collections (PersistentClient L chroma_path) ->
    exists (status : Z) (err : string) (w' : world),
      export_chromadb L chroma_path collection_name output_file limit
        skip_projections w = (SystemExit status, w') /\
      status <> 0%Z /\
      (forall i args w0,
         dependency_missing i ->
         exit_status (fst (script L i args w0)) <> status) /\
      stdout w' = stdout w ++
        [ "Connecting to ChromaDB at " +:+ chroma_path +:+ "...";
          "Error: Could not get collection '" +:+ collection_name +:+ "': " +:+ err;
          "Available collections: " +:+
            py_repr_list (coll_name <$> list_collections (PersistentClient L chroma_path)) ] /\
      files w' = files w.

(** ** Vocabulary of the further properties *)

(** [w'] is [w] with arrays appended to the heap and lines appended to the
    output; the files are the same. *)
Definition grows (w w' : world) : Prop :=
  exists ext lines, w' = mkWorld (heap w ++ ext) (stdout w ++ lines) (files w).

(** A computation that only allocates and prints, however it ends. *)
Definition quiet {A} (m : M A) : Prop := forall w, grows w (snd (m w)).

(** How a run that may write [output_file] leaves the world: after a normal
    end the file holds some output and nothing else changed but the heap's
    and the output's ends; after an exception or an exit no file changed. *)
Definition ends (output_file : string) (w : world) (r : outcome unit * world) : Prop :=
  match r with
  | (Return _, w') =>
      exists out ext lines,
        w' = mkWorld (heap w ++ ext) (stdout w ++ lines)
               (<[output_file := out]> (files w))
  | (_, w') => grows w w'
  end.

(** A matrix the normaliser accepts: at least one row, all rows of one
    length. *)
Definition normalisable (Y : list (list float)) : Prop :=
  match Y with
  | r :: rs => Forall (fun row => length row = length r) rs
  | [] => False
  end.

(** What the normaliser returns for it. *)
Definition normalized {R : Rounding} (scale : Q) (Y : list (list float))
    : list (list float) :=
  match Y with
  | r :: rs => normalized_rows scale r rs
  | [] => []
  end.

(** The lines [compute_projections] prints on [n] samples. *)
Definition projection_log (n : nat) : list string :=
  [ "Computing projections for " +:+ pretty n +:+ " documents...";
    "  Computing PCA..."; "  PCA done.";
    "  Computing UMAP..."; "  UMAP done.";
    "  Computing t-SNE (this may take a while)..."; "  t-SNE done." ].

(** scikit-learn's argument check in [TSNE.fit]: the perplexity must be less
    than [n_samples]; otherwise [ValueError]. *)
Definition tsne_validates (L : Libraries) : Prop :=
  forall (n_components : nat) (perplexity random_state : Z) (max_iter : nat)
         (X : list (list float)),
    (Z.of_nat (length X) <= perplexity)%Z ->
    exists msg,
      TSNE_fit_transform L n_components perplexity random_state max_iter X
      = Err (ValueError msg).

(** The header of the output for [data]. *)
Definition export_header (data : GetResult) : ExportMetadata :=
  mkExportMetadata "Claude Memory" "sentence-transformers/all-mpnet-base-v2"
    (n_features (default [] (embeddings data))) (length (ids data)).

(** ** Sample data *)

Section Samples.
Local Open Scope Q_scope.

Definition sample_points : list (list Q) :=
  [[1; 2; 3]; [4; 2; 9 # 2]; [- (3); 2; 0]].

Definition sample_world : world :=
  mkWorld [Arr1 [Fin 7]; Arr2 (to_floats sample_points)] ["started"] ∅.

End Samples.

(** A stand-in for the projection libraries: each algorithm checks its
    arguments as the real one does and then keeps the leading
    [n_components] coordinates of every row. *)
Definition leading_components (n_components : nat) (X : list (list float))
    : list (list float) :=
  lmap (take n_components) X.

Definition sample_PCA (n_components : nat) (random_state : Z)
    (X : list (list float)) : pyresult (list (list float)) :=
  if n_components <=? Nat.min (length X) (n_features X)
  then Ok (leading_components n_components X)
  else Err (ValueError "n_components must be between 0 and min(n_samples, n_features)").

Definition sample_UMAP (n_components n_neighbors : nat) (min_dist : Q)
    (metric : string) (random_state : Z) (X : list (list float))
    : pyresult (list (list float)) :=
  Ok (leading_components n_components X).

Definition sample_TSNE (n_components : nat) (perplexity random_state : Z)
    (max_iter : nat) (X : list (list float)) : pyresult (list (list float)) :=
  if (perplexity <? Z.of_nat (length X))%Z
  then Ok (leading_components n_components X)
  else Err (ValueError "perplexity must be less than n_samples").

Section SampleStore.
Local Open Scope Q_scope.

Definition sample_embeddings : list (list Q) :=
  [ [1; 0; 0; 0]; [0; 1; 0; 0]; [0; 0; 1; 0];
    [1 # 2; 1 # 2; 0; 7]; [- (1); 3; 1 # 4; 0]; [2; - (2); 5; 1] ].

End SampleStore.

Definition sample_data : GetResult :=
  mkGetResult ["a"; "b"; "c"; "d"; "e"; "f"]
    (Some sample_embeddings)
    (Some [Some "alpha"; Some "beta"; Some "gamma"; Some "delta";
           Some "epsilon"; Some "zeta"])
    None.

(** [limit=n] keeps the first [n] rows of every field. *)
Definition limit_data (n : nat) (d : GetResult) : GetResult :=
  mkGetResult (take n (ids d)) (take n <$> embeddings d)
    (take n <$> documents d) (take n <$> metadatas d).

Definition sample_get (d : GetResult) (limit : option Z) : pyresult GetResult :=
  match limit with
  | None => Ok d
  | Some n =>
      if (n <? 0)%Z then Err (ValueError "limit must be non-negative")
      else Ok (limit_data (Z.to_nat n) d)
  end.

Definition sample_collection : Collection :=
  mkCollection "conversations" 6 (sample_get sample_data).

Definition empty_collection : Collection :=
  mkCollection "drafts" 0 (sample_get (mkGetResult [] (Some []) (Some []) (Some []))).

Definition sample_client : Client :=
  mkClient [sample_collection; empty_collection].

Definition sample_libraries : Libraries :=
  mkLibraries (fun _ => sample_client) sample_PCA sample_UMAP sample_TSNE
    (fun _ => "0.0").

Definition empty_world : world := mkWorld [] [] ∅.

(** The exporter on the sample store, from an empty world. *)
Definition sample_run (collection_name : string) (limit : option Z)
    (skip_projections : bool) : outcome unit * world :=
  export_chromadb (R := binary64) sample_libraries "~/.claude-memory/chroma"
    collection_name "public/data/claude-memory.json" limit skip_projections
    empty_world.

(** A store that answers with five ids but six embeddings and no texts. *)
Definition skewed_data : GetResult :=
  mkGetResult ["a"; "b"; "c"; "d"; "e"] (Some sample_embeddings) None None.

Definition skewed_collection : Collection :=
  mkCollection "skewed" 5 (sample_get skewed_data).

(** A store with items that have no text or no metadata. *)
Definition sparse_data : GetResult :=
  mkGetResult ["a"; "b"; "c"] (Some (take 3 sample_embeddings))
    (Some [Some "alpha"; None])
    (Some [None; Some {["source" := SStr "chat"]}; Some ∅]).

Definition sparse_collection : Collection :=
  mkCollection "sparse" 3 (sample_get sparse_data).

Definition skewed_libraries : Libraries :=
  mkLibraries (fun _ => mkClient [skewed_collection; sparse_collection])
    sample_PCA sample_UMAP sample_TSNE (fun _ => "0.0").

(** A world that holds the sample embeddings as its only array. *)
Definition loaded_world : world :=
  mkWorld [Arr2 (to_floats sample_embeddings)] [] ∅.

(** The exporter on the skewed store. *)
Definition skewed_run (skip_projections : bool) : outcome unit * world :=
  export_chromadb (R := binary64) skewed_libraries "~/.claude-memory/chroma"
    "skewed" "public/data/claude-memory.json" None skip_projections empty_world.

(** The exporter on the store with missing texts, projections skipped. *)
Definition sparse_run : outcome unit * world :=
  export_chromadb (R := binary64) skewed_libraries "~/.claude-memory/chroma"
    "sparse" "public/data/claude-memory.json" None true empty_world.

(** Two points whose distance on the first axis is beyond the largest
    binary64 value: the floats 1e308 and -1e308. *)
Definition overflow_points : list (list Q) :=
  [ [rnd_binary64 (inject_Z (10 ^ 308)); 0%Q; 0%Q];
    [(- rnd_binary64 (inject_Z (10 ^ 308)))%Q; 1%Q; 0%Q] ].

Definition overflow_world : world :=
  mkWorld [Arr2 (to_floats overflow_points)] [] ∅.

(** A world whose only array has no rows. *)
Definition hollow_world : world := mkWorld [Arr2 []] [] ∅.


(** * Properties *)

(** ** The formats *)

Lemma exact_laws : RoundingLaws exact_rounding.
Proof.
  constructor.
  - intros x y H; exact H.
  - intros x y H; exact H.
  - intros z _; reflexivity.
  - apply Qle_bool_iff. vm_compute. reflexivity.
Qed.

(** binary64 is such a format: [ilog2] finds the binade, rounding to the
    nearest integer is monotone, and so is rounding across binades. *)

Section Binary64.
Local Open Scope Q_scope.

Lemma two_pow_pos (k : Z) : 0 < 2 ^ k.
Proof. apply Qpower_0_lt. reflexivity. Qed.

Lemma two_pow_le (n m : Z) : (n <= m)%Z -> 2 ^ n <= 2 ^ m.
Proof. intros H. apply Qpower_le_compat_l; [exact H | discriminate]. Qed.

Lemma two_pow_Z (n : Z) : (0 <= n)%Z -> inject_Z (2 ^ n) == 2 ^ n.
Proof. intros H. apply (Zpower_Qpower 2 n H). Qed.

(** [ilog2 a] is the binary exponent of a positive rational. *)
Lemma ilog2_spec (a : Q) : 0 < a -> 2 ^ ilog2 a <= a < 2 ^ (ilog2 a + 1).
Proof.
  intros Ha. destruct a as [n d].
  assert (Hn : (0 < n)%Z).
  { unfold Qlt in Ha. simpl in Ha. lia. }
  unfold ilog2. cbn [Qnum Qden].
  set (ln := Z.log2 n). set (ld := Z.log2 (Z.pos d)).
  destruct (Z.log2_spec n Hn) as [Hn1 Hn2]. fold ln in Hn1, Hn2.
  destruct (Z.log2_spec (Z.pos d) ltac:(lia)) as [Hd1 Hd2]. fold ld in Hd1, Hd2.
  assert (Hln : (0 <= ln)%Z) by apply Z.log2_nonneg.
  assert (Hld : (0 <= ld)%Z) by apply Z.log2_nonneg.
  assert (Eq : n # d == inject_Z n / inject_Z (Z.pos d)) by apply Qmake_Qdiv.
  assert (Hdpos : 0 < inject_Z (Z.pos d)) by (unfold Qlt; simpl; lia).
  (* bounds of numerator and denominator as powers of two *)
  assert (N1 : 2 ^ ln <= inject_Z n).
  { rewrite <- two_pow_Z by lia. rewrite <- Zle_Qle. exact Hn1. }
  assert (N2 : inject_Z n < 2 ^ (ln + 1)).
  { rewrite <- two_pow_Z by lia. rewrite <- Zlt_Qlt.
    replace (ln + 1)%Z with (Z.succ ln) by lia. exact Hn2. }
  assert (D1 : 2 ^ ld <= inject_Z (Z.pos d)).
  { rewrite <- two_pow_Z by lia. rewrite <- Zle_Qle. exact Hd1. }
  assert (D2 : inject_Z (Z.pos d) < 2 ^ (ld + 1)).
  { rewrite <- two_pow_Z by lia. rewrite <- Zlt_Qlt.
    replace (ld + 1)%Z with (Z.succ ld) by lia. exact Hd2. }
  (* the quotient lies strictly between 2^(k-1) and 2^(k+1) *)
  assert (Lo : 2 ^ (ln - ld - 1) < n # d).
  { rewrite Eq. apply Qlt_shift_div_l; [exact Hdpos|].
    eapply Qlt_le_trans; [| exact N1].
    eapply Qlt_le_trans; [apply Qmult_lt_l; [apply two_pow_pos | exact D2] |].
    rewrite <- Qpower_plus by discriminate.
    replace (ln - ld - 1 + (ld + 1))%Z with ln by lia. apply Qle_refl. }
  assert (Hi : n # d < 2 ^ (ln - ld + 1)).
  { rewrite Eq. apply Qlt_shift_div_r; [exact Hdpos|].
    eapply Qlt_le_trans; [exact N2|].
    eapply Qle_trans; [| apply Qmult_le_l; [apply two_pow_pos | exact D1]].
    rewrite <- Qpower_plus by discriminate.
    replace (ln - ld + 1 + ld)%Z with (ln + 1)%Z by lia. apply Qle_refl. }
  destruct (Qle_bool (2 ^ (ln - ld)) (n # d)) eqn:E.
  - apply Qle_bool_iff in E. split; assumption.
  - assert (E' : n # d < 2 ^ (ln - ld)).
    { apply Qnot_le_lt. intros H. apply Qle_bool_iff in H. congruence. }
    split.
    + apply Qlt_le_weak. exact Lo.
    + replace (ln - ld - 1 + 1)%Z with (ln - ld)%Z by lia. exact E'.
Qed.

Lemma ilog2_mono (a b : Q) : 0 < a -> a <= b -> (ilog2 a <= ilog2 b)%Z.
Proof.
  intros Ha Hab.
  destruct (ilog2_spec a Ha) as [A1 A2].
  destruct (ilog2_spec b ltac:(lra)) as [B1 B2].
  destruct (Z_le_gt_dec (ilog2 a) (ilog2 b)) as [H|H]; [exact H|].
  exfalso.
  assert (L : 2 ^ (ilog2 b + 1) <= 2 ^ ilog2 a) by (apply two_pow_le; lia).
  lra.
Qed.

Lemma ilog2_proper (a b : Q) : 0 < a -> a == b -> ilog2 a = ilog2 b.
Proof.
  intros Ha Hab. apply Z.le_antisymm; apply ilog2_mono; lra.
Qed.

(** Rounding to the nearest integer, ties to even. *)
Lemma round_half_even_proper (m m' : Q) :
  m == m' -> round_half_even m = round_half_even m'.
Proof.
  intros H. unfold round_half_even.
  rewrite (Qfloor_comp _ _ H).
  assert (E : (m - inject_Z (Qfloor m') ?= 1 # 2) = (m' - inject_Z (Qfloor m') ?= 1 # 2)).
  { apply Qcompare_comp; [rewrite H; reflexivity | reflexivity]. }
  rewrite E. reflexivity.
Qed.

Lemma round_half_even_bounds (m : Q) :
  (Qfloor m <= round_half_even m <= Qfloor m + 1)%Z.
Proof.
  unfold round_half_even.
  destruct (m - inject_Z (Qfloor m) ?= 1 # 2); [destruct (Z.even (Qfloor m)) | |]; lia.
Qed.

Lemma round_half_even_Z (z : Z) : round_half_even (inject_Z z) = z.
Proof.
  unfold round_half_even. rewrite Qfloor_Z.
  assert (E : (inject_Z z - inject_Z z ?= 1 # 2) = Lt).
  { apply Qlt_alt. unfold Qminus. rewrite Qplus_opp_r. reflexivity. }
  rewrite E. reflexivity.
Qed.

Lemma round_half_even_mono (m m' : Q) :
  m <= m' -> (round_half_even m <= round_half_even m')%Z.
Proof.
  intros H.
  pose proof (Qfloor_resp_le _ _ H) as Hf.
  destruct (Z.eq_dec (Qfloor m) (Qfloor m')) as [E|E].
  - unfold round_half_even. rewrite E.
    destruct (m - inject_Z (Qfloor m') ?= 1 # 2) eqn:C;
      destruct (m' - inject_Z (Qfloor m') ?= 1 # 2) eqn:C';
      try (destruct (Z.even (Qfloor m')); lia); try lia; exfalso.
    + apply Qeq_alt in C. apply Qlt_alt in C'. lra.
    + apply Qgt_alt in C. apply Qeq_alt in C'. lra.
    + apply Qgt_alt in C. apply Qlt_alt in C'. lra.
  - pose proof (round_half_even_bounds m). pose proof (round_half_even_bounds m'). lia.
Qed.

Lemma round_positive_proper (a b : Q) :
  0 < a -> a == b -> round_positive a == round_positive b.
Proof.
  intros Ha Hab. unfold round_positive.
  rewrite (ilog2_proper a b Ha Hab).
  rewrite (round_half_even_proper (a / 2 ^ (Z.max (-1022) (ilog2 b) - 52))
             (b / 2 ^ (Z.max (-1022) (ilog2 b) - 52))).
  - reflexivity.
  - rewrite Hab. reflexivity.
Qed.

Lemma round_positive_nonneg (a : Q) : 0 < a -> 0 <= round_positive a.
Proof.
  intros Ha. unfold round_positive.
  apply Qmult_le_0_compat; [| apply Qlt_le_weak, two_pow_pos].
  change 0 with (inject_Z 0). rewrite <- Zle_Qle.
  rewrite <- (round_half_even_Z 0). apply round_half_even_mono.
  apply Qlt_le_weak. apply Qlt_shift_div_l; [apply two_pow_pos |].
  rewrite Qmult_0_l. exact Ha.
Qed.

(** A positive value rounds to at most the next power of two above it and to
    at least the power of two of its exponent, when it is normal. *)
Lemma round_positive_upper (a : Q) (e : Z) :
  0 < a -> e = Z.max (-1022) (ilog2 a) -> round_positive a <= 2 ^ (e + 1).
Proof.
  intros Ha He. unfold round_positive. rewrite <- He.
  destruct (ilog2_spec a Ha) as [_ A2].
  assert (A3 : a <= 2 ^ (e + 1)).
  { apply Qlt_le_weak. eapply Qlt_le_trans; [exact A2 | apply two_pow_le; lia]. }
  assert (Hm : a / 2 ^ (e - 52) <= inject_Z (2 ^ 53)).
  { apply Qle_shift_div_r; [apply two_pow_pos|].
    rewrite (two_pow_Z 53) by lia. rewrite <- Qpower_plus by discriminate.
    replace (53 + (e - 52))%Z with (e + 1)%Z by lia. exact A3. }
  apply round_half_even_mono in Hm. rewrite round_half_even_Z in Hm.
  apply (Qle_trans _ (inject_Z (2 ^ 53) * 2 ^ (e - 52))).
  - apply Qmult_le_compat_r; [| apply Qlt_le_weak, two_pow_pos].
    rewrite <- Zle_Qle. exact Hm.
  - rewrite (two_pow_Z 53) by lia. rewrite <- Qpower_plus by discriminate.
    replace (53 + (e - 52))%Z with (e + 1)%Z by lia. apply Qle_refl.
Qed.

Lemma round_positive_lower (a : Q) :
  0 < a -> (-1022 <= ilog2 a)%Z -> 2 ^ ilog2 a <= round_positive a.
Proof.
  intros Ha He. unfold round_positive.
  replace (Z.max (-1022) (ilog2 a)) with (ilog2 a) by lia.
  destruct (ilog2_spec a Ha) as [A1 _].
  assert (Hm : inject_Z (2 ^ 52) <= a / 2 ^ (ilog2 a - 52)).
  { apply Qle_shift_div_l; [apply two_pow_pos|].
    rewrite (two_pow_Z 52) by lia. rewrite <- Qpower_plus by discriminate.
    replace (52 + (ilog2 a - 52))%Z with (ilog2 a) by lia. exact A1. }
  apply round_half_even_mono in Hm. rewrite round_half_even_Z in Hm.
  apply (Qle_trans _ (inject_Z (2 ^ 52) * 2 ^ (ilog2 a - 52))).
  - rewrite (two_pow_Z 52) by lia. rewrite <- Qpower_plus by discriminate.
    replace (52 + (ilog2 a - 52))%Z with (ilog2 a) by lia. apply Qle_refl.
  - apply Qmult_le_compat_r; [| apply Qlt_le_weak, two_pow_pos].
    rewrite <- Zle_Qle. exact Hm.
Qed.

Lemma round_positive_mono (a b : Q) :
  0 < a -> a <= b -> round_positive a <= round_positive b.
Proof.
  intros Ha Hab.
  pose proof (ilog2_mono a b Ha Hab) as He.
  destruct (Z.eq_dec (Z.max (-1022) (ilog2 a)) (Z.max (-1022) (ilog2 b))) as [E|E].
  - unfold round_positive. rewrite E.
    apply Qmult_le_compat_r; [| apply Qlt_le_weak, two_pow_pos].
    rewrite <- Zle_Qle. apply round_half_even_mono.
    apply Qmult_le_compat_r; [exact Hab|].
    apply Qlt_le_weak, Qinv_lt_0_compat, two_pow_pos.
  - eapply Qle_trans; [apply (round_positive_upper a _ Ha eq_refl)|].
    eapply Qle_trans; [| apply round_positive_lower; [lra | lia]].
    apply two_pow_le. lia.
Qed.

Lemma rnd_binary64_proper (x y : Q) : x == y -> rnd_binary64 x == rnd_binary64 y.
Proof.
  intros H. unfold rnd_binary64.
  assert (E : (x ?= 0) = (y ?= 0)) by (apply Qcompare_comp; [exact H | reflexivity]).
  rewrite <- E. destruct (Qcompare_spec x 0) as [C|C|C].
  - reflexivity.
  - assert (P : round_positive (- x) == round_positive (- y)).
    { apply round_positive_proper; [lra | rewrite H; reflexivity]. }
    rewrite P. reflexivity.
  - apply round_positive_proper; [lra | exact H].
Qed.

Lemma rnd_binary64_mono (x y : Q) : x <= y -> rnd_binary64 x <= rnd_binary64 y.
Proof.
  intros H. unfold rnd_binary64.
  destruct (Qcompare_spec x 0) as [Cx|Cx|Cx];
    destruct (Qcompare_spec y 0) as [Cy|Cy|Cy]; try (exfalso; lra).
  - apply Qle_refl.
  - apply round_positive_nonneg. lra.
  - pose proof (round_positive_nonneg (- x) ltac:(lra)). lra.
  - pose proof (round_positive_mono (- y) (- x) ltac:(lra) ltac:(lra)). lra.
  - pose proof (round_positive_nonneg (- x) ltac:(lra)).
    pose proof (round_positive_nonneg y ltac:(lra)). lra.
  - apply round_positive_mono; lra.
Qed.

Lemma rnd_binary64_half_ints :
  forallb (fun z => Qeq_bool (rnd_binary64 (z # 2)) (z # 2)) (seqZ (-1024) 2049) = true.
Proof. vm_compute. reflexivity. Qed.

Lemma rnd_binary64_half_int (z : Z) :
  (Z.abs z <= 1024)%Z -> rnd_binary64 (z # 2) == z # 2.
Proof.
  intros Hz. apply Qeq_bool_iff.
  apply (proj1 (forallb_forall _ _) rnd_binary64_half_ints z).
  apply list_elem_of_In, elem_of_seqZ. lia.
Qed.

(** The model against doubles Python shows: 0.1 is
    0x1.999999999999ap-4, 1e308 is 0x1.1ccf385ebc8a0p+1023, and a third is
    0x1.5555555555555p-2. *)
Example rnd_binary64_samples :
  rnd_binary64 (1 # 10) == 3602879701896397 # 36028797018963968 /\
  rnd_binary64 (inject_Z (10 ^ 308)) == inject_Z (5010420900022432 * 2 ^ 971) /\
  rnd_binary64 (1 # 3) == 6004799503160661 # 18014398509481984.
Proof. repeat split; apply Qeq_bool_iff; vm_compute; reflexivity. Qed.

End Binary64.

Lemma binary64_laws : RoundingLaws binary64.
Proof.
  constructor.
  - exact rnd_binary64_proper.
  - exact rnd_binary64_mono.
  - exact rnd_binary64_half_int.
  - apply Qle_bool_iff. vm_compute. reflexivity.
Qed.

#[local] Existing Instance exact_laws.
#[local] Existing Instance binary64_laws.

(** ** Rounding and overflow *)

Lemma Qle_bool_false (x y : Q) : Qle_bool x y = false -> (y < x)%Q.
Proof.
  intros H. apply Qnot_le_lt. intros Hle. apply Qle_bool_iff in Hle. congruence.
Qed.

Section FloatLaws.
Context {R : Rounding} {RL : RoundingLaws R}.
Local Open Scope Q_scope.

Lemma rnd_0 : rnd 0 == 0.
Proof.
  eapply Qeq_trans; [apply (rnd_proper 0 (0 # 2)); reflexivity|].
  eapply Qeq_trans; [apply rnd_half_int; simpl; lia | reflexivity].
Qed.

Lemma rnd_1 : rnd 1 == 1.
Proof.
  eapply Qeq_trans; [apply (rnd_proper 1 (2 # 2)); reflexivity|].
  eapply Qeq_trans; [apply rnd_half_int; simpl; lia | reflexivity].
Qed.

Lemma rnd_half_int_eq (q : Q) (z : Z) :
  q == z # 2 -> (Z.abs z <= 1024)%Z -> rnd q == q.
Proof.
  intros Hq Hz.
  eapply Qeq_trans; [apply (rnd_proper q (z # 2)); exact Hq|].
  eapply Qeq_trans; [apply rnd_half_int; exact Hz | symmetry; exact Hq].
Qed.

Lemma rnd_nonneg (q : Q) : 0 <= q -> 0 <= rnd q.
Proof.
  intros H. eapply Qle_trans; [| apply (rnd_mono 0); exact H]. rewrite rnd_0. lra.
Qed.

(** A rounded result within the range of the format is the result. *)
Lemma overflow_finite (r : Q) : - fmax <= r -> r <= fmax -> overflow r = Fin r.
Proof.
  intros H1 H2. unfold overflow.
  apply Qle_bool_iff in H1, H2. rewrite H1, H2. reflexivity.
Qed.

Lemma overflow_Fin (r g : Q) : overflow r = Fin g -> g = r /\ - fmax <= r <= fmax.
Proof.
  unfold overflow.
  destruct (Qle_bool r fmax) eqn:E1; [| discriminate].
  destruct (Qle_bool (- fmax) r) eqn:E2; [| discriminate].
  intros [= <-]. apply Qle_bool_iff in E1, E2. auto.
Qed.

Lemma overflow_proper (r r' : Q) : r == r' -> same_float (overflow r) (overflow r').
Proof.
  intros H. pose proof fmax_half_int as Hf. unfold overflow.
  destruct (Qle_bool r fmax) eqn:E1; destruct (Qle_bool r' fmax) eqn:E1';
    destruct (Qle_bool (- fmax) r) eqn:E2; destruct (Qle_bool (- fmax) r') eqn:E2';
    simpl; try exact H; try exact I;
    repeat match goal with
           | E : Qle_bool _ _ = true |- _ => apply Qle_bool_iff in E
           | E : Qle_bool _ _ = false |- _ => apply Qle_bool_false in E
           end; lra.
Qed.


Lemma round_finite (q : Q) : - fmax <= rnd q -> rnd q <= fmax -> round q = Fin (rnd q).
Proof. apply overflow_finite. Qed.

Lemma round_Fin (q g : Q) : round q = Fin g -> g = rnd q /\ - fmax <= rnd q <= fmax.
Proof. apply overflow_Fin. Qed.

Lemma round_proper (q q' : Q) : q == q' -> same_float (round q) (round q').
Proof. intros H. apply overflow_proper, rnd_proper, H. Qed.

End FloatLaws.

Lemma same_float_trans (x y z : float) :
  same_float x y -> same_float y z -> same_float x z.
Proof.
  destruct x, y, z; simpl; try contradiction; try (intros; exact I).
  apply Qeq_trans.
Qed.

(** ** Running the monad *)

Lemma bind_return {A B} (m : M A) (k : A -> M B) w a w' :
  m w = (Return a, w') -> bind m k w = k a w'.
Proof. intros H. unfold bind. rewrite H. reflexivity. Qed.

Lemma bind_raise {A B} (m : M A) (k : A -> M B) w e w' :
  m w = (Raise e, w') -> bind m k w = (Raise e, w').
Proof. intros H. unfold bind. rewrite H. reflexivity. Qed.

Lemma load_run w l a : heap w !! l = Some a -> load l w = (Return a, w).
Proof. intros H. unfold load. rewrite H. reflexivity. Qed.

(** A heap that grew at its end still holds the old arrays. *)
Lemma lookup_grown (h ext : list ndarray) l a :
  h !! l = Some a -> (h ++ ext) !! l = Some a.
Proof. intros H. apply lookup_app_l_Some. exact H. Qed.

Lemma lookup_fresh (h ext : list ndarray) k :
  (h ++ ext) !! (length h + k) = ext !! k.
Proof.
  rewrite lookup_app_r by lia.
  replace (length h + k - length h) with k by lia. reflexivity.
Qed.

Lemma insert_fresh (h ext : list ndarray) k a :
  <[length h + k := a]> (h ++ ext) = h ++ <[k := a]> ext.
Proof.
  rewrite insert_app_r_alt by lia.
  replace (length h + k - length h) with k by lia. reflexivity.
Qed.

Lemma same_width_Forall {A B} (v : list A) (m : list (list B)) :
  same_width v m = true <-> Forall (fun r => length r = length v) m.
Proof.
  unfold same_width. rewrite forallb_forall, Forall_forall.
  split; intros H r Hr.
  - apply Nat.eqb_eq, H, list_elem_of_In, Hr.
  - apply Nat.eqb_eq, H, list_elem_of_In, Hr.
Qed.

Lemma lookup_fresh0 (h ext : list ndarray) : (h ++ ext) !! length h = ext !! 0.
Proof. rewrite <- (lookup_fresh h ext 0). f_equal. lia. Qed.

Lemma insert_fresh0 (h ext : list ndarray) a :
  <[length h := a]> (h ++ ext) = h ++ <[0 := a]> ext.
Proof. rewrite <- (insert_fresh h ext 0). f_equal. lia. Qed.

Lemma set_heap_twice w h h' : set_heap (set_heap w h) h' = set_heap w h'.
Proof. reflexivity. Qed.

Lemma set_heap_same w : set_heap w (heap w ++ []) = w.
Proof. rewrite app_nil_r. destruct w; reflexivity. Qed.

Ltac heap_norm :=
  cbv beta; rewrite ?set_heap_twice; cbn [heap set_heap stdout files];
  rewrite <- ?app_assoc; cbn [app];
  rewrite ?length_app; cbn [length];
  rewrite ?insert_fresh, ?insert_fresh0; cbn [insert list_insert].

Ltac heap_lookup :=
  heap_norm;
  first [ eassumption
        | apply lookup_grown; eassumption
        | rewrite lookup_fresh; reflexivity
        | rewrite lookup_fresh0; reflexivity ].

(** ** The normaliser on the heap *)

Section NormaliserRun.
Context {R : Rounding}.

Lemma length_col_reduce {A} (f : A -> A -> A) (r : list A) (rs : list (list A)) :
  Forall (fun row => length row = length r) rs ->
  length (foldl (zip_with f) r rs) = length r.
Proof.
  revert r. induction rs as [|x rs IH]; intros r H; simpl; [reflexivity|].
  inversion H as [|? ? Hx Hrs]; subst.
  rewrite IH.
  - rewrite length_zip_with. lia.
  - rewrite length_zip_with. eapply Forall_impl; [exact Hrs|]. simpl. intros; lia.
Qed.

Lemma reduce_axis0_run name f w points r rs :
  heap w !! points = Some (Arr2 (r :: rs)) ->
  reduce_axis0 name f points w =
    (Return (length (heap w)), set_heap w (heap w ++ [Arr1 (foldl (zip_with f) r rs)])).
Proof. intros H. unfold reduce_axis0. rewrite (bind_return _ _ _ _ _ (load_run _ _ _ H)). reflexivity. Qed.

Lemma np_binop_run_vv op w x y u v :
  heap w !! x = Some (Arr1 u) -> heap w !! y = Some (Arr1 v) ->
  length u = length v ->
  np_binop op x y w =
    (Return (length (heap w)), set_heap w (heap w ++ [Arr1 (zip_with op u v)])).
Proof.
  intros Hx Hy Hl. unfold np_binop.
  rewrite (bind_return _ _ _ _ _ (load_run _ _ _ Hx)).
  rewrite (bind_return _ _ _ _ _ (load_run _ _ _ Hy)).
  apply Nat.eqb_eq in Hl. rewrite Hl. reflexivity.
Qed.

Lemma np_binop_run_mv op w x y m v :
  heap w !! x = Some (Arr2 m) -> heap w !! y = Some (Arr1 v) ->
  same_width v m = true ->
  np_binop op x y w =
    (Return (length (heap w)),
     set_heap w (heap w ++ [Arr2 (lmap (fun r => zip_with op r v) m)])).
Proof.
  intros Hx Hy Hl. unfold np_binop.
  rewrite (bind_return _ _ _ _ _ (load_run _ _ _ Hx)).
  rewrite (bind_return _ _ _ _ _ (load_run _ _ _ Hy)).
  rewrite Hl. reflexivity.
Qed.

Lemma np_subtract_scalar_run w x m c :
  heap w !! x = Some (Arr2 m) ->
  np_subtract_scalar x c w =
    (Return (length (heap w)),
     set_heap w (heap w ++ [Arr2 (lmap (fmap (fun t => fsub t c)) m)])).
Proof.
  intros Hx. unfold np_subtract_scalar.
  rewrite (bind_return _ _ _ _ _ (load_run _ _ _ Hx)). reflexivity.
Qed.

Lemma np_setitem_eq_run w x u c v :
  heap w !! x = Some (Arr1 u) ->
  np_setitem_eq x c v w =
    (Return tt, set_heap w (<[x := Arr1 (lmap (mask_eq c v) u)]> (heap w))).
Proof.
  intros Hx. unfold np_setitem_eq.
  rewrite (bind_return _ _ _ _ _ (load_run _ _ _ Hx)). reflexivity.
Qed.

Lemma np_imul_scalar_run w x m c :
  heap w !! x = Some (Arr2 m) ->
  np_imul_scalar x c w =
    (Return tt, set_heap w (<[x := Arr2 (lmap (fmap (fun t => fmul t c)) m)]> (heap w))).
Proof.
  intros Hx. unfold np_imul_scalar.
  rewrite (bind_return _ _ _ _ _ (load_run _ _ _ Hx)). reflexivity.
Qed.

Lemma np_tolist_run w x m :
  heap w !! x = Some (Arr2 m) -> np_tolist x w = (Return m, w).
Proof.
  intros Hx. unfold np_tolist.
  rewrite (bind_return _ _ _ _ _ (load_run _ _ _ Hx)). reflexivity.
Qed.

Lemma same_width_reduce {A} (f : A -> A -> A) (r : list A) (rs : list (list A)) :
  Forall (fun row => length row = length r) rs ->
  same_width (foldl (zip_with f) r rs) (r :: rs) = true.
Proof.
  intros H. apply same_width_Forall. rewrite length_col_reduce by exact H.
  constructor; [reflexivity | exact H].
Qed.

Lemma normalize_projection_run w points scale r rs :
  heap w !! points = Some (Arr2 (r :: rs)) ->
  Forall (fun row => length row = length r) rs ->
  normalize_projection points scale w =
    (Return (normalized_rows scale r rs),
     set_heap w (heap w ++ normalize_garbage scale r rs)).
Proof.
  intros Hp Hw.
  unfold normalize_projection, np_min_axis0, np_max_axis0, np_subtract, np_divide.
  erewrite bind_return by (apply reduce_axis0_run; heap_lookup). heap_norm.
  erewrite bind_return by (apply reduce_axis0_run; heap_lookup). heap_norm.
  erewrite bind_return.
  2:{ apply np_binop_run_vv. 1,2: heap_lookup.
      rewrite !length_col_reduce by exact Hw. reflexivity. }
  heap_norm.
  erewrite bind_return by (apply np_setitem_eq_run; heap_lookup). heap_norm.
  erewrite bind_return.
  2:{ apply np_binop_run_mv. 1,2: heap_lookup. apply same_width_reduce, Hw. }
  heap_norm.
  erewrite bind_return.
  2:{ apply np_binop_run_mv. 1,2: heap_lookup.
      apply same_width_Forall, Forall_forall. intros row Hrow.
      apply list_elem_of_fmap in Hrow as (row0 & -> & Hrow0).
      assert (Hl : length row0 = length r).
      { apply elem_of_cons in Hrow0 as [->|Hin]; [reflexivity|].
        exact (proj1 (Forall_forall _ _) Hw _ Hin). }
      rewrite length_fmap, !length_zip_with, !length_col_reduce by exact Hw. lia. }
  heap_norm.
  erewrite bind_return by (apply np_subtract_scalar_run; heap_lookup). heap_norm.
  erewrite bind_return by (apply np_imul_scalar_run; heap_lookup). heap_norm.
  erewrite np_tolist_run by heap_lookup.
  reflexivity.
Qed.

Lemma length_col_reduce_indep {A} (f g : A -> A -> A) (r : list A) (rs : list (list A)) :
  length (foldl (zip_with f) r rs) = length (foldl (zip_with g) r rs).
Proof.
  assert (G : forall r r' : list A, length r = length r' ->
            length (foldl (zip_with f) r rs) = length (foldl (zip_with g) r' rs)).
  { induction rs as [|x rs IH]; intros r1 r2 H; simpl; [exact H|].
    apply IH. rewrite !length_zip_with. lia. }
  apply G. reflexivity.
Qed.

(** On rows of different lengths the subtraction of line 95 cannot
    broadcast: the call raises after the three vectors were allocated. *)
Lemma normalize_projection_ragged w points scale r rs :
  heap w !! points = Some (Arr2 (r :: rs)) ->
  same_width (col_min r rs) (r :: rs) = false ->
  normalize_projection points scale w =
    (Raise (ValueError "operands could not be broadcast together"),
     set_heap w (heap w ++ [Arr1 (col_min r rs); Arr1 (col_max r rs);
                            Arr1 (col_ranges r rs)])).
Proof.
  intros Hp Hw.
  unfold normalize_projection, np_min_axis0, np_max_axis0, np_subtract, np_divide.
  erewrite bind_return by (apply reduce_axis0_run; heap_lookup). heap_norm.
  erewrite bind_return by (apply reduce_axis0_run; heap_lookup). heap_norm.
  erewrite bind_return.
  2:{ apply np_binop_run_vv. 1,2: heap_lookup. apply length_col_reduce_indep. }
  heap_norm.
  erewrite bind_return by (apply np_setitem_eq_run; heap_lookup). heap_norm.
  erewrite bind_raise; [reflexivity|].
  unfold np_binop.
  erewrite bind_return by (apply load_run; heap_lookup).
  erewrite bind_return by (apply load_run; heap_lookup).
  unfold col_min in Hw. cbv beta iota. rewrite Hw. reflexivity.
Qed.

Lemma same_width_rows {A} (v r : list A) (rs : list (list A)) :
  same_width v (r :: rs) = true ->
  Forall (fun row => length row = length r) rs.
Proof.
  intros H. apply same_width_Forall in H. inversion H as [|? ? Hr Hrs]; subst.
  eapply Forall_impl; [exact Hrs|]. simpl. intros row Hrow. congruence.
Qed.

(** Whatever the argument, a call only appends arrays to the heap; it
    prints nothing and touches no file. *)
Lemma normalize_projection_grows w points scale :
  exists ext,
    snd (normalize_projection points scale w) = set_heap w (heap w ++ ext).
Proof.
  destruct (heap w !! points) as [[v|[|r rs]]|] eqn:Hp.
  - exists []. rewrite set_heap_same.
    unfold normalize_projection, np_min_axis0, reduce_axis0.
    destruct v.
    all: erewrite bind_raise; [reflexivity|].
    all: erewrite bind_return by (apply load_run; eassumption); reflexivity.
  - exists []. rewrite set_heap_same.
    unfold normalize_projection, np_min_axis0, reduce_axis0.
    erewrite bind_raise; [reflexivity|].
    erewrite bind_return by (apply load_run; eassumption). reflexivity.
  - destruct (same_width (col_min r rs) (r :: rs)) eqn:Hw.
    + eexists. erewrite normalize_projection_run; [reflexivity| exact Hp |].
      eapply same_width_rows, Hw.
    + eexists. erewrite normalize_projection_ragged by eassumption. reflexivity.
  - exists []. rewrite set_heap_same.
    unfold normalize_projection, np_min_axis0, reduce_axis0.
    erewrite bind_raise; [reflexivity|].
    unfold bind, load. rewrite Hp. reflexivity.
Qed.

End NormaliserRun.

(** ** The values the normaliser computes *)

Section NormaliserBounds.
Context {R : Rounding} {RL : RoundingLaws R}.
Local Open Scope Q_scope.

(** The divisor of line 95 is positive: a zero range was replaced by 1. *)
Lemma rational_range_positive (mn mx : Q) : mn <= mx -> 0 < rational_range mn mx.
Proof.
  intros H. unfold rational_range.
  destruct (Qeq_bool (rnd (mx - mn)) 0) eqn:E; [reflexivity|].
  apply Qeq_bool_neq in E.
  assert (H0 : 0 <= rnd (mx - mn)) by (apply rnd_nonneg; lra).
  lra.
Qed.

Lemma rational_unit_bounds (x mn mx : Q) :
  mn <= x -> x <= mx -> 0 <= rational_unit x mn mx <= 1.
Proof.
  intros Hlo Hhi. unfold rational_unit, rational_range.
  assert (Hc0 : 0 <= rnd (x - mn)) by (apply rnd_nonneg; lra).
  assert (Hcg : rnd (x - mn) <= rnd (mx - mn)) by (apply rnd_mono; lra).
  destruct (Qeq_bool (rnd (mx - mn)) 0) eqn:E.
  - apply Qeq_bool_iff in E.
    assert (Hz : rnd (rnd (x - mn) / 1) == 0).
    { eapply Qeq_trans; [apply (rnd_proper _ 0) | apply rnd_0].
      assert (Hc : rnd (x - mn) == 0) by lra.
      rewrite Hc. reflexivity. }
    rewrite Hz. lra.
  - apply Qeq_bool_neq in E.
    assert (Hg : 0 < rnd (mx - mn)) by lra.
    split.
    + eapply Qle_trans; [| apply (rnd_mono 0)].
      * rewrite rnd_0. lra.
      * apply Qle_shift_div_l; [exact Hg | lra].
    + eapply Qle_trans; [apply (rnd_mono _ 1) |].
      * apply Qle_shift_div_r; [exact Hg | lra].
      * rewrite rnd_1. lra.
Qed.

Lemma shifted_entry_bounds (u : Q) :
  0 <= u <= 1 -> - (1 # 2) <= rnd (u - (1 # 2)) <= 1 # 2.
Proof.
  intros [H0 H1]. split.
  - eapply Qle_trans; [| apply (rnd_mono (- (1 # 2))); lra].
    rewrite (rnd_half_int_eq (- (1 # 2)) (-1)); [lra | reflexivity | simpl; lia].
  - eapply Qle_trans; [apply (rnd_mono _ (1 # 2)); lra |].
    rewrite (rnd_half_int_eq (1 # 2) 1); [lra | reflexivity | simpl; lia].
Qed.

Lemma rational_entry_box (scale x mn mx : Q) :
  0 <= scale -> mn <= x -> x <= mx ->
  rnd (- (1 # 2) * scale) <= rational_entry scale x mn mx <= rnd ((1 # 2) * scale).
Proof.
  intros Hs Hlo Hhi. unfold rational_entry.
  destruct (shifted_entry_bounds _ (rational_unit_bounds x mn mx Hlo Hhi)) as [H0 H1].
  split; apply rnd_mono; apply Qmult_le_compat_r; assumption.
Qed.

Lemma rnd_half_default : rnd ((1 # 2) * default_scale) == 20.
Proof.
  unfold default_scale.
  eapply Qeq_trans; [apply (rnd_half_int_eq _ 40); [reflexivity | simpl; lia] | reflexivity].
Qed.

Lemma rnd_neg_half_default : rnd (- (1 # 2) * default_scale) == - (20).
Proof.
  unfold default_scale.
  eapply Qeq_trans; [apply (rnd_half_int_eq _ (-40)); [reflexivity | simpl; lia] | reflexivity].
Qed.

Lemma rational_entry_bounds (x mn mx : Q) :
  mn <= x -> x <= mx ->
  - (20) <= rational_entry default_scale x mn mx <= 20.
Proof.
  intros Hlo Hhi.
  pose proof (rational_entry_box default_scale x mn mx ltac:(discriminate) Hlo Hhi)
    as [Ha Hb].
  rewrite rnd_half_default in Hb. rewrite rnd_neg_half_default in Ha.
  split; assumption.
Qed.


(** The smallest value of a column goes to -0.5 * scale. *)
Lemma rational_entry_at_min (scale x mn mx : Q) :
  mn == x -> rational_entry scale x mn mx == rnd (- (1 # 2) * scale).
Proof.
  intros Hmn. unfold rational_entry, rational_unit.
  assert (Hc : rnd (x - mn) == 0).
  { eapply Qeq_trans; [apply (rnd_proper _ 0); lra | apply rnd_0]. }
  assert (Hu : rnd (rnd (x - mn) / rational_range mn mx) == 0).
  { eapply Qeq_trans; [apply (rnd_proper _ 0) | apply rnd_0].
    rewrite Hc. unfold Qdiv. apply Qmult_0_l. }
  assert (Hs : rnd (rnd (rnd (x - mn) / rational_range mn mx) - (1 # 2)) == - (1 # 2)).
  { eapply Qeq_trans; [apply (rnd_proper _ (- (1 # 2))); lra |].
    apply (rnd_half_int_eq _ (-1)); [reflexivity | simpl; lia]. }
  apply rnd_proper. rewrite Hs. reflexivity.
Qed.

(** The largest value of a column whose range did not round to zero goes to
    +0.5 * scale. *)
Lemma rational_entry_at_max (scale x mn mx : Q) :
  mx == x -> ~ rnd (mx - mn) == 0 ->
  rational_entry scale x mn mx == rnd ((1 # 2) * scale).
Proof.
  intros Hmx Hg. unfold rational_entry, rational_unit, rational_range.
  destruct (Qeq_bool (rnd (mx - mn)) 0) eqn:E.
  { apply Qeq_bool_iff in E. contradiction. }
  assert (Hc : rnd (x - mn) == rnd (mx - mn)).
  { apply rnd_proper. lra. }
  assert (Hu : rnd (rnd (x - mn) / rnd (mx - mn)) == 1).
  { eapply Qeq_trans; [apply (rnd_proper _ 1) | apply rnd_1].
    rewrite Hc. unfold Qdiv. apply Qmult_inv_r. exact Hg. }
  assert (Hs : rnd (rnd (rnd (x - mn) / rnd (mx - mn)) - (1 # 2)) == 1 # 2).
  { eapply Qeq_trans; [apply (rnd_proper _ (1 # 2)); lra |].
    apply (rnd_half_int_eq _ 1); [reflexivity | simpl; lia]. }
  apply rnd_proper. rewrite Hs. reflexivity.
Qed.

(** When the range of the column is finite, the entry the code computes for
    finite values is the rational one, up to a last overflow. *)
Lemma normalized_entry_rational (scale x mn mx g : Q) :
  mn <= x -> x <= mx -> round (mx - mn) = Fin g ->
  normalized_entry scale (Fin x) (Fin mn) (Fin mx)
  = overflow (rational_entry scale x mn mx).
Proof.
  intros Hlo Hhi Hg. pose proof fmax_half_int as Hf.
  destruct (round_Fin _ _ Hg) as [-> [Hg1 Hg2]].
  assert (Hc0 : 0 <= rnd (x - mn)) by (apply rnd_nonneg; lra).
  assert (Hcg : rnd (x - mn) <= rnd (mx - mn)) by (apply rnd_mono; lra).
  assert (Hc : round (x - mn) = Fin (rnd (x - mn))) by (apply round_finite; lra).
  unfold normalized_entry. cbn [fsub]. rewrite Hg, Hc.
  assert (Hm : mask_eq (Fin 0) (Fin 1) (Fin (rnd (mx - mn)))
               = Fin (rational_range mn mx)).
  { unfold mask_eq, rational_range. cbn [feqb].
    destruct (Qeq_bool (rnd (mx - mn)) 0); reflexivity. }
  rewrite Hm.
  pose proof (rational_range_positive mn mx ltac:(lra)) as Hd.
  assert (Hu : fdiv (Fin (rnd (x - mn))) (Fin (rational_range mn mx))
               = Fin (rational_unit x mn mx)).
  { cbn [fdiv].
    destruct (Qeq_bool (rational_range mn mx) 0) eqn:E.
    { apply Qeq_bool_iff in E. lra. }
    destruct (rational_unit_bounds x mn mx Hlo Hhi) as [H0 H1].
    unfold rational_unit in *. apply round_finite; lra. }
  rewrite Hu. cbn [fsub].
  destruct (shifted_entry_bounds _ (rational_unit_bounds x mn mx Hlo Hhi)) as [H0 H1].
  rewrite round_finite by lra.
  reflexivity.
Qed.

(** A finite entry that equals the minimum of its column goes to
    -0.5 * scale, also when the range of the column is not finite. *)
Lemma normalized_entry_at_min (scale x mn : Q) (mx : float) :
  mn == x -> fle (Fin x) mx ->
  same_float (normalized_entry scale (Fin x) (Fin mn) mx)
    (fmul (Fin (- (1 # 2))) (Fin scale)).
Proof.
  intros Hmn Hmx. pose proof fmax_half_int as Hf.
  assert (Hc : exists c, round (x - mn) = Fin c /\ c == 0).
  { exists (rnd (x - mn)).
    assert (E : rnd (x - mn) == 0).
    { eapply Qeq_trans; [apply (rnd_proper _ 0); lra | apply rnd_0]. }
    split; [apply round_finite; lra | exact E]. }
  destruct Hc as (c & Hc & Hc0).
  assert (Hhalf : forall u, u == 0 ->
            same_float (fmul (fsub (Fin u) (Fin (1 # 2))) (Fin scale))
              (fmul (Fin (- (1 # 2))) (Fin scale))).
  { intros u Hu. cbn [fsub].
    assert (E : rnd (u - (1 # 2)) == - (1 # 2)).
    { eapply Qeq_trans; [apply (rnd_proper _ (- (1 # 2))); lra |].
      apply (rnd_half_int_eq _ (-1)); [reflexivity | simpl; lia]. }
    rewrite round_finite by lra. cbn [fmul].
    apply round_proper. rewrite E. reflexivity. }
  assert (Hinf : same_float (normalized_entry scale (Fin x) (Fin mn) mx)
                   (fmul (Fin (- (1 # 2))) (Fin scale))
                 \/ exists a g, mx = Fin a /\ x <= a /\ round (a - mn) = Fin g).
  { destruct mx as [a| | |]; simpl in Hmx; try contradiction.
    - destruct (round (a - mn)) as [g| | |] eqn:Hg.
      + right. exists a, g. auto.
      + left. unfold normalized_entry. cbn [fsub]. rewrite Hg, Hc.
        unfold mask_eq. cbn [feqb fdiv]. apply Hhalf. reflexivity.
      + exfalso. unfold round, overflow in Hg.
        destruct (Qle_bool (rnd (a - mn)) fmax); [| discriminate].
        destruct (Qle_bool (- fmax) (rnd (a - mn))) eqn:E; [discriminate|].
        apply Qle_bool_false in E.
        assert (0 <= rnd (a - mn)) by (apply rnd_nonneg; lra). lra.
      + exfalso. unfold round, overflow in Hg.
        destruct (Qle_bool (rnd (a - mn)) fmax); [| discriminate].
        destruct (Qle_bool (- fmax) (rnd (a - mn))); discriminate.
    - left. unfold normalized_entry. cbn [fsub]. rewrite Hc.
      unfold mask_eq. cbn [feqb fdiv]. apply Hhalf. reflexivity. }
  destruct Hinf as [H | (a & g & -> & Ha & Hg)]; [exact H|].
  rewrite (normalized_entry_rational scale x mn a g) by (first [lra | exact Hg]).
  cbn [fmul]. unfold round. apply overflow_proper.
  apply rational_entry_at_min. exact Hmn.
Qed.

End NormaliserBounds.

(** ** Columns *)

(** Every entry of a column reduction is related to every entry it was
    reduced from, when each step of the reduction is. *)
Lemma col_reduce_below {A} (f : A -> A -> A) (le : A -> A -> Prop) :
  (forall a, le a a) ->
  (forall a b c, le a b -> le b c -> le a c) ->
  (forall a b, le (f a b) a /\ le (f a b) b) ->
  forall (rs : list (list A)) (r : list A) (j : nat) (m : A),
    foldl (zip_with f) r rs !! j = Some m ->
    forall row, row ∈ r :: rs -> exists x, row !! j = Some x /\ le m x.
Proof.
  intros Hrefl Htrans Hf. induction rs as [|r0 rs IH]; intros r j m Hm row Hrow.
  - simpl in Hm. apply list_elem_of_singleton in Hrow as ->. exists m. split; [exact Hm | apply Hrefl].
  - simpl in Hm.
    destruct (IH _ _ _ Hm (zip_with f r r0)) as (y & Hy & Hle); [left|].
    apply lookup_zip_with_Some in Hy as (a & b & -> & Ha & Hb).
    destruct (Hf a b) as [Hfa Hfb].
    apply elem_of_cons in Hrow as [->|Hrow].
    + exists a. split; [exact Ha | eapply Htrans; eassumption].
    + apply elem_of_cons in Hrow as [->|Hrow].
      * exists b. split; [exact Hb | eapply Htrans; eassumption].
      * apply (IH _ _ _ Hm). right. exact Hrow.
Qed.

(** A property that each step of the reduction preserves holds of the
    reduced entry when it holds of the whole column. *)
Lemma col_reduce_closed {A} (f : A -> A -> A) (P : A -> Prop) :
  (forall a b, P a -> P b -> P (f a b)) ->
  forall (rs : list (list A)) (r : list A) (j : nat) (m : A),
    foldl (zip_with f) r rs !! j = Some m ->
    (forall row x, row ∈ r :: rs -> row !! j = Some x -> P x) ->
    P m.
Proof.
  intros Hf. induction rs as [|r0 rs IH]; intros r j m Hm HP.
  - simpl in Hm. eapply HP; [left | exact Hm].
  - simpl in Hm. eapply IH; [exact Hm|].
    intros row x Hrow Hx. apply elem_of_cons in Hrow as [->|Hrow].
    + apply lookup_zip_with_Some in Hx as (a & b & -> & Ha & Hb).
      apply Hf; [eapply HP; [left | exact Ha] | eapply HP; [right; left | exact Hb]].
    + eapply HP; [right; right; exact Hrow | exact Hx].
Qed.

(** The order of the floats, NaN below and above everything: the relation a
    reduction that returns NaN has to every entry. *)
Lemma fle_refl (a : float) : a = NaN \/ fle a a.
Proof. destruct a; simpl; auto. right. apply Qle_refl. Qed.

Lemma fle_trans (a b c : float) : fle a b -> fle b c -> fle a c.
Proof.
  destruct a, b, c; simpl; try contradiction; auto. apply Qle_trans.
Qed.

Lemma fmin_below (a b : float) :
  (fmin a b = NaN \/ fle (fmin a b) a) /\ (fmin a b = NaN \/ fle (fmin a b) b).
Proof.
  destruct a, b; simpl; auto using Q.le_min_l, Q.le_min_r, Qle_refl.
Qed.

Lemma fmax_above (a b : float) :
  (fmax_of a b = NaN \/ fle a (fmax_of a b)) /\
  (fmax_of a b = NaN \/ fle b (fmax_of a b)).
Proof.
  destruct a, b; simpl; auto using Q.le_max_l, Q.le_max_r, Qle_refl.
Qed.

Lemma col_min_below (r : list float) (rs : list (list float)) (j : nat)
    (mn x : float) (row : list float) :
  col_min r rs !! j = Some mn -> row ∈ r :: rs -> row !! j = Some x ->
  mn = NaN \/ fle mn x.
Proof.
  intros Hm Hrow Hx.
  destruct (col_reduce_below fmin (fun a b => a = NaN \/ fle a b))
    with (rs := rs) (r := r) (j := j) (m := mn) (row := row) as (y & Hy & Hle);
    [apply fle_refl | | apply fmin_below | exact Hm | exact Hrow |].
  - intros a b c [->|H1] [->|H2]; auto.
    + destruct a; simpl in H1; contradiction || auto.
    + right. eapply fle_trans; eassumption.
  - congruence.
Qed.

Lemma col_max_above (r : list float) (rs : list (list float)) (j : nat)
    (mx x : float) (row : list float) :
  col_max r rs !! j = Some mx -> row ∈ r :: rs -> row !! j = Some x ->
  mx = NaN \/ fle x mx.
Proof.
  intros Hm Hrow Hx.
  destruct (col_reduce_below fmax_of (fun a b => a = NaN \/ fle b a))
    with (rs := rs) (r := r) (j := j) (m := mx) (row := row) as (y & Hy & Hle);
    [apply fle_refl | | apply fmax_above | exact Hm | exact Hrow |].
  - intros a b c [->|H1] [->|H2]; auto.
    + destruct a; simpl in H1; contradiction || auto.
    + right. eapply fle_trans; eassumption.
  - congruence.
Qed.

Section Columns.
Context {R : Rounding}.

(** Where each entry of the result comes from. *)
Lemma normalized_rows_lookup (scale : Q) (r : list float) (rs : list (list float))
    (i j : nat) (out_row : list float) (v : float) :
  normalized_rows scale r rs !! i = Some out_row ->
  out_row !! j = Some v ->
  exists row x mn mx,
    (r :: rs) !! i = Some row /\ row !! j = Some x /\
    col_min r rs !! j = Some mn /\ col_max r rs !! j = Some mx /\
    v = normalized_entry scale x mn mx.
Proof.
  unfold normalized_rows, shifted_rows, unit_rows, centered_rows, col_ranges.
  intros Hi Hj.
  rewrite !list_lookup_fmap in Hi.
  destruct ((r :: rs) !! i) as [row|] eqn:Hrow; [| discriminate].
  simpl in Hi. injection Hi as <-.
  rewrite !list_lookup_fmap in Hj.
  destruct (zip_with fdiv (zip_with fsub row (col_min r rs))
              (mask_eq (Fin 0) (Fin 1) <$> zip_with fsub (col_max r rs) (col_min r rs)) !! j)
    as [u|] eqn:Hu; [| discriminate].
  simpl in Hj. injection Hj as <-.
  apply lookup_zip_with_Some in Hu as (c & g & -> & Hc & Hg).
  apply lookup_zip_with_Some in Hc as (x & mn & -> & Hx & Hmn).
  rewrite list_lookup_fmap in Hg.
  destruct (zip_with fsub (col_max r rs) (col_min r rs) !! j) as [g0|] eqn:Hg0;
    [| discriminate].
  simpl in Hg. injection Hg as <-.
  apply lookup_zip_with_Some in Hg0 as (mx & mn' & -> & Hmx & Hmn').
  assert (mn' = mn) as -> by congruence.
  exists row, x, mn, mx. repeat split; assumption.
Qed.

Lemma normalized_rows_shape (scale : Q) (r : list float) (rs : list (list float)) :
  Forall (fun row => length row = length r) rs ->
  length (normalized_rows scale r rs) = S (length rs) /\
  Forall (fun row => length row = length r) (normalized_rows scale r rs).
Proof.
  intros Hw. unfold normalized_rows, shifted_rows, unit_rows, centered_rows, col_ranges.
  split.
  - rewrite !length_fmap. reflexivity.
  - rewrite <- !list_fmap_compose. apply Forall_fmap, Forall_forall.
    intros row Hrow. simpl.
    assert (Hl : length row = length r).
    { apply elem_of_cons in Hrow as [->|Hin]; [reflexivity|].
      exact (proj1 (Forall_forall _ _) Hw _ Hin). }
    rewrite !length_fmap, !length_zip_with, length_fmap, length_zip_with.
    unfold col_max, col_min. rewrite !length_col_reduce by exact Hw. lia.
Qed.

(** Where each entry of the argument goes. *)
Lemma normalized_rows_at (scale : Q) (r : list float) (rs : list (list float))
    (i j : nat) (row : list float) (x : float) :
  Forall (fun row => length row = length r) rs ->
  (r :: rs) !! i = Some row -> row !! j = Some x ->
  exists out_row mn mx,
    normalized_rows scale r rs !! i = Some out_row /\
    out_row !! j = Some (normalized_entry scale x mn mx) /\
    col_min r rs !! j = Some mn /\ col_max r rs !! j = Some mx.
Proof.
  intros Hw Hrow Hx.
  destruct (normalized_rows_shape scale r rs Hw) as [Hlen Hwid].
  assert (Hl : length row = length r).
  { apply list_elem_of_lookup_2 in Hrow.
    apply elem_of_cons in Hrow as [->|Hin]; [reflexivity|].
    exact (proj1 (Forall_forall _ _) Hw _ Hin). }
  destruct (lookup_lt_is_Some_2 (normalized_rows scale r rs) i) as [out_row Hout].
  { rewrite Hlen. apply lookup_lt_Some in Hrow. simpl in Hrow. lia. }
  destruct (lookup_lt_is_Some_2 out_row j) as [v Hv].
  { rewrite (proj1 (Forall_lookup _ _) Hwid i out_row Hout), <- Hl.
    eapply lookup_lt_Some, Hx. }
  destruct (normalized_rows_lookup _ _ _ _ _ _ _ Hout Hv)
    as (row' & x' & mn & mx & Hrow' & Hx' & Hmn & Hmx & ->).
  assert (row' = row) as -> by congruence.
  assert (x' = x) as -> by congruence.
  exists out_row, mn, mx. repeat split; assumption.
Qed.

(** On an axis whose range is finite the minimum and the maximum are finite,
    and so is every entry, between the two. *)
Lemma finite_axis (r : list float) (rs : list (list float)) (j : nat)
    (row : list float) (x mn mx : float) :
  Forall finite (axis_ranges (r :: rs)) ->
  row ∈ r :: rs -> row !! j = Some x ->
  col_min r rs !! j = Some mn -> col_max r rs !! j = Some mx ->
  exists q a b g,
    x = Fin q /\ mn = Fin b /\ mx = Fin a /\ (b <= q <= a)%Q /\
    round (a - b) = Fin g.
Proof.
  intros Hfin Hrow Hx Hmn Hmx.
  assert (Hg : finite (fsub mx mn)).
  { eapply (proj1 (Forall_lookup _ _) Hfin j).
    cbn [axis_ranges]. apply lookup_zip_with_Some. eauto. }
  pose proof (col_min_below r rs j mn x row Hmn Hrow Hx) as Hlo.
  pose proof (col_max_above r rs j mx x row Hmx Hrow Hx) as Hhi.
  destruct mx as [a| | |], mn as [b| | |]; try (simpl in Hg; contradiction).
  cbn [fsub] in Hg.
  destruct (round (a - b)) as [g| | |] eqn:Eg; try (simpl in Hg; contradiction).
  destruct Hlo as [Hlo|Hlo]; [discriminate|].
  destruct Hhi as [Hhi|Hhi]; [discriminate|].
  destruct x as [q| | |]; simpl in Hlo, Hhi; try contradiction.
  exists q, a, b, g. repeat split; assumption.
Qed.

End Columns.

(** ** The normaliser: claims *)

Section NormaliserClaims.
Context {R : Rounding} {RL : RoundingLaws R}.
Local Open Scope Q_scope.

Lemma fmul_neg_half_default :
  same_float (fmul (Fin (- (1 # 2))) (Fin default_scale)) (Fin (- (20))).
Proof.
  cbn [fmul]. pose proof rnd_neg_half_default as E. pose proof fmax_half_int as Hf.
  rewrite round_finite by lra. exact E.
Qed.

Lemma normalized_entry_within (x mn mx g : Q) :
  mn <= x -> x <= mx -> round (mx - mn) = Fin g ->
  within (- (20)) 20 (normalized_entry default_scale (Fin x) (Fin mn) (Fin mx)).
Proof.
  intros Hlo Hhi Hg. pose proof fmax_half_int as Hf.
  rewrite (normalized_entry_rational default_scale x mn mx g Hlo Hhi Hg).
  pose proof (rational_entry_bounds x mn mx Hlo Hhi) as [H0 H1].
  rewrite overflow_finite by lra. split; assumption.
Qed.

Lemma rows_of_width {A} (c : nat) (r : list A) (rs : list (list A)) :
  Forall (fun row => length row = c) (r :: rs) ->
  Forall (fun row => length row = length r) rs.
Proof.
  intros H. inversion H as [|? ? Hr Hrs]; subst.
  eapply Forall_impl; [exact Hrs|]. simpl. intros; congruence.
Qed.

(** C1. On a non-empty N×3 matrix whose range max - min is finite on every
    axis (the subtraction of line 92 neither overflows nor meets an infinity
    or NaN) and the default scale 40.0, [normalize_projection] returns, and
    every value of the matrix it returns is finite and lies in
    [-20.0, 20.0], on each of the three axes; the result has the shape of
    the argument. *)
Theorem normalize_projection_bounded (w : world) (points : loc)
    (pts : list (list float)) :
  heap w !! points = Some (Arr2 pts) ->
  pts <> [] ->
  Forall (fun row => length row = 3%nat) pts ->
  Forall finite (axis_ranges pts) ->
  exists out w',
    normalize_projection points default_scale w = (Return out, w') /\
    length out = length pts /\
    Forall (fun row => length row = 3%nat /\ Forall (within (- (20)) 20) row) out.
Proof.
  intros Hp Hne Hshape Hfin. destruct pts as [|r rs]; [congruence|].
  pose proof (rows_of_width 3 r rs Hshape) as Hw.
  assert (Hr : length r = 3%nat) by (inversion Hshape; assumption).
  destruct (normalized_rows_shape default_scale r rs Hw) as [Hlen Hwid].
  eexists _, _. split; [apply normalize_projection_run; eassumption|].
  split; [exact Hlen|].
  apply Forall_lookup. intros i out_row Hi. split.
  - rewrite <- Hr. exact (proj1 (Forall_lookup _ _) Hwid i out_row Hi).
  - apply Forall_lookup. intros j v Hj.
    destruct (normalized_rows_lookup _ _ _ _ _ _ _ Hi Hj)
      as (row & x & mn & mx & Hrow & Hx & Hmn & Hmx & ->).
    apply list_elem_of_lookup_2 in Hrow.
    destruct (finite_axis r rs j row x mn mx Hfin Hrow Hx Hmn Hmx)
      as (q & a & b & g & -> & -> & -> & [Hlo Hhi] & Hg).
    eapply normalized_entry_within; eassumption.
Qed.

(** C3. When all points of a non-empty N×3 matrix have the same finite
    coordinate on an axis, [normalize_projection] replaces that axis's range
    by 1 (the entry of [ranges], the third array the call allocates), returns
    without an error, and every output value on that axis is the product
    -0.5 * scale, which is -20.0 at the default scale. *)
Theorem normalize_projection_zero_range (w : world) (points : loc)
    (pts : list (list float)) (scale : Q) (j : nat) :
  heap w !! points = Some (Arr2 pts) ->
  pts <> [] ->
  Forall (fun row => length row = 3%nat) pts ->
  (j < 3)%nat ->
  (forall row row' x x', row ∈ pts -> row' ∈ pts ->
     row !! j = Some x -> row' !! j = Some x' -> finite x /\ same_float x x') ->
  exists out w' ranges,
    normalize_projection points scale w = (Return out, w') /\
    heap w' !! (length (heap w) + 2)%nat = Some (Arr1 ranges) /\
    ranges !! j = Some (Fin 1) /\
    length out = length pts /\
    Forall (fun row => exists v, row !! j = Some v /\
                         same_float v (fmul (Fin (- (1 # 2))) (Fin scale)) /\
                         (scale = default_scale -> same_float v (Fin (- (20))))) out.
Proof.
  intros Hp Hne Hshape Hj Hsame. destruct pts as [|r rs]; [congruence|].
  pose proof (rows_of_width 3 r rs Hshape) as Hw.
  assert (Hr : length r = 3%nat) by (inversion Hshape; assumption).
  destruct (normalized_rows_shape scale r rs Hw) as [Hlen Hwid].
  destruct (lookup_lt_is_Some_2 r j) as [x0 Hx0]; [lia|].
  assert (Hc : exists c, x0 = Fin c).
  { destruct (Hsame r r x0 x0) as [Hf _]; [left | left | exact Hx0 | exact Hx0 |].
    destruct x0; simpl in Hf; try contradiction. eauto. }
  destruct Hc as [c ->].
  assert (Hall : forall row x, row ∈ r :: rs -> row !! j = Some x ->
            same_float x (Fin c)).
  { intros row x Hrow Hx.
    apply (Hsame row r x (Fin c)); [exact Hrow | left | exact Hx | exact Hx0]. }
  assert (Hcol : forall (f : float -> float -> float),
            (forall a b, same_float a (Fin c) -> same_float b (Fin c) ->
                         same_float (f a b) (Fin c)) ->
            exists m, foldl (zip_with f) r rs !! j = Some (Fin m) /\ m == c).
  { intros f Hf.
    destruct (lookup_lt_is_Some_2 (foldl (zip_with f) r rs) j) as [m Hm].
    { rewrite length_col_reduce by exact Hw. lia. }
    assert (Hmc : same_float m (Fin c)).
    { apply (col_reduce_closed f (fun y => same_float y (Fin c)))
        with (rs := rs) (r := r) (j := j); [exact Hf | exact Hm | exact Hall]. }
    destruct m as [m| | |]; simpl in Hmc; try contradiction.
    exists m. split; [exact Hm | exact Hmc]. }
  destruct (Hcol fmin) as (mn & Hmn & Emn).
  { intros [a| | |] [b| | |]; simpl; try contradiction. intros Ha Hb.
    destruct (Q.min_dec a b) as [E|E]; rewrite E; assumption. }
  destruct (Hcol fmax_of) as (mx & Hmx & Emx).
  { intros [a| | |] [b| | |]; simpl; try contradiction. intros Ha Hb.
    destruct (Q.max_dec a b) as [E|E]; rewrite E; assumption. }
  pose proof fmax_half_int as Hfm.
  eexists _, _, (col_ranges r rs).
  split; [apply normalize_projection_run; eassumption|].
  split; [cbn [heap set_heap]; rewrite lookup_fresh; reflexivity|].
  split.
  { unfold col_ranges. rewrite list_lookup_fmap.
    erewrite (proj2 (lookup_zip_with_Some fsub _ _ j (fsub (Fin mx) (Fin mn))))
      by (exists (Fin mx), (Fin mn); repeat split; assumption).
    simpl. f_equal. cbn [fsub].
    assert (E : rnd (mx - mn) == 0).
    { eapply Qeq_trans; [apply (rnd_proper _ 0); lra | apply rnd_0]. }
    rewrite round_finite by lra.
    unfold mask_eq. cbn [feqb]. apply Qeq_bool_iff in E. rewrite E. reflexivity. }
  split; [exact Hlen|].
  apply Forall_lookup. intros i out_row Hi.
  destruct (lookup_lt_is_Some_2 out_row j) as [v Hv].
  { rewrite (proj1 (Forall_lookup _ _) Hwid i out_row Hi). lia. }
  exists v. split; [exact Hv|].
  destruct (normalized_rows_lookup _ _ _ _ _ _ _ Hi Hv)
    as (row & x & mn' & mx' & Hrow & Hx & Hmn' & Hmx' & ->).
  assert (mn' = Fin mn) as -> by (unfold col_min in Hmn'; congruence).
  assert (mx' = Fin mx) as -> by (unfold col_max in Hmx'; congruence).
  apply list_elem_of_lookup_2 in Hrow.
  pose proof (Hall row x Hrow Hx) as Ex.
  destruct x as [x| | |]; simpl in Ex; try contradiction.
  assert (He : same_float (normalized_entry scale (Fin x) (Fin mn) (Fin mx))
                 (fmul (Fin (- (1 # 2))) (Fin scale))).
  { apply normalized_entry_at_min; [lra | simpl; lra]. }
  split; [exact He|].
  intros ->. eapply same_float_trans; [exact He | apply fmul_neg_half_default].
Qed.

(** C9. [normalize_projection] leaves the array it is given as it was:
    whatever the argument, the heap after the call is the heap before it
    followed by freshly allocated arrays, so the array behind [points] (and
    every other array that existed) is unchanged; nothing is printed or
    written. *)
Theorem normalize_projection_frame (w : world) (points : loc) (scale : Q) :
  let w' := snd (normalize_projection points scale w) in
  heap w' !! points = heap w !! points /\
  take (length (heap w)) (heap w') = heap w /\
  stdout w' = stdout w /\ files w' = files w.
Proof.
  intros w'. subst w'.
  assert (Hpt : heap (snd (normalize_projection points scale w)) !! points
                = heap w !! points).
  { destruct (heap w !! points) as [a|] eqn:Hp.
    - destruct (normalize_projection_grows w points scale) as [ext Hext].
      rewrite Hext. cbn [heap set_heap]. apply lookup_grown. exact Hp.
    - assert (Hw : snd (normalize_projection points scale w) = w).
      { unfold normalize_projection, np_min_axis0, reduce_axis0.
        erewrite bind_raise; [reflexivity|].
        unfold bind, load. rewrite Hp. reflexivity. }
      rewrite Hw. exact Hp. }
  split; [exact Hpt|].
  destruct (normalize_projection_grows w points scale) as [ext Hext].
  rewrite Hext. cbn [heap stdout files set_heap].
  split; [| split; reflexivity].
  rewrite take_app_length. reflexivity.
Qed.

End NormaliserClaims.

(** C1 at the sample matrix, in binary64. *)
Lemma normalize_projection_bounded_witness :
  heap sample_world !! 1 = Some (Arr2 (to_floats sample_points)) /\
  to_floats sample_points <> [] /\
  Forall (fun row => length row = 3) (to_floats sample_points) /\
  Forall finite (axis_ranges (R := binary64) (to_floats sample_points)) /\
  exists out w',
    normalize_projection (R := binary64) 1 default_scale sample_world
      = (Return out, w') /\
    length out = length (to_floats sample_points) /\
    Forall (fun row => length row = 3 /\
                       Forall (within (- (20)) 20) row) out.
Proof.
  split; [reflexivity|]. split; [discriminate|].
  split; [repeat constructor|].
  split; [vm_compute; repeat constructor|].
  apply (normalize_projection_bounded (R := binary64) sample_world 1
           (to_floats sample_points));
    [reflexivity | discriminate | repeat constructor | vm_compute; repeat constructor].
Defined.

(** C1 as the specification states it, without a condition on the ranges,
    fails in binary64: the points (1e308, 0, 0) and (-1e308, 1, 0) are 2e308
    apart on the first axis, which is beyond the largest float.  The range
    and the centred first coordinate of the first point are both infinite,
    their quotient is NaN, and NaN is in no interval. *)
Lemma normalize_projection_overflow :
  heap overflow_world !! 0 = Some (Arr2 (to_floats overflow_points)) /\
  to_floats overflow_points <> [] /\
  Forall (fun row => length row = 3) (to_floats overflow_points) /\
  axis_ranges (R := binary64) (to_floats overflow_points) !! 0 = Some PInf /\
  (exists out w',
     normalize_projection (R := binary64) 0 default_scale overflow_world
       = (Return out, w') /\
     Forall2 (Forall2 same_float) out
       [ [NaN; Fin (- (20)); Fin (- (20))];
         [Fin (- (20)); Fin 20; Fin (- (20))] ]) /\
  ~ (exists out w',
       normalize_projection (R := binary64) 0 default_scale overflow_world
         = (Return out, w') /\
       length out = length (to_floats overflow_points) /\
       Forall (fun row => length row = 3 /\
                          Forall (within (- (20)) 20) row) out).
Proof.
  split; [reflexivity|]. split; [discriminate|].
  split; [repeat constructor|].
  split; [vm_compute; reflexivity|].
  split.
  - eexists _, _. split; [vm_compute; reflexivity|].
    repeat (constructor; try first [exact I | reflexivity]).
  - intros (out & w' & Hrun & _ & Hall).
    vm_compute in Hrun. injection Hrun as <- _.
    apply Forall_cons in Hall as [[_ Hrow] _].
    apply Forall_cons in Hrow as [Hnan _]. exact Hnan.
Qed.

Lemma sample_points_axis1 (row : list float) (x : float) :
  row ∈ to_floats sample_points -> row !! 1 = Some x -> x = Fin 2.
Proof.
  unfold sample_points. intros Hrow Hx. cbn in Hrow.
  repeat (apply elem_of_cons in Hrow as [->|Hrow]; [simpl in Hx; congruence|]).
  apply elem_of_nil in Hrow. contradiction.
Qed.

(** C3 at the sample matrix, whose second axis is constant. *)
Lemma normalize_projection_zero_range_witness :
  heap sample_world !! 1 = Some (Arr2 (to_floats sample_points)) /\
  to_floats sample_points <> [] /\
  Forall (fun row => length row = 3) (to_floats sample_points) /\
  1 < 3 /\
  exists out w' ranges,
    normalize_projection (R := binary64) 1 default_scale sample_world
      = (Return out, w') /\
    heap w' !! (length (heap sample_world) + 2) = Some (Arr1 ranges) /\
    ranges !! 1 = Some (Fin 1) /\
    length out = length (to_floats sample_points) /\
    Forall (fun row => exists v, row !! 1 = Some v /\
                         same_float v (fmul (R := binary64) (Fin (- (1 # 2)))
                                         (Fin default_scale)) /\
                         (default_scale = default_scale ->
                          same_float v (Fin (- (20))))) out.
Proof.
  split; [reflexivity|]. split; [discriminate|].
  split; [repeat constructor|]. split; [lia|].
  apply (normalize_projection_zero_range (R := binary64)
           sample_world 1 (to_floats sample_points) default_scale 1);
    [reflexivity | discriminate | repeat constructor | lia |].
  intros row row' x x' Hrow Hrow' Hx Hx'.
  rewrite (sample_points_axis1 row x Hrow Hx), (sample_points_axis1 row' x' Hrow' Hx').
  split; [exact I | reflexivity].
Defined.

(** The sample call, evaluated in exact arithmetic and in binary64. *)
Example normalize_projection_sample :
  fst (normalize_projection (R := exact_rounding) 1 default_scale sample_world)
  = Return [[Fin (40 # 14); Fin (-40 # 2); Fin (120 # 18)];
            [Fin (280 # 14); Fin (-40 # 2); Fin (720 # 36)];
            [Fin (-280 # 14); Fin (-40 # 2); Fin (-360 # 18)]]%Q.
Proof. vm_compute. reflexivity. Qed.

(** ** Running the exporter *)

Lemma bind_print {B} (line : string) (k : unit -> M B) w :
  bind (print line) k w = k tt (set_stdout w (stdout w ++ [line])).
Proof. reflexivity. Qed.

Lemma bind_ret {A B} (a : A) (k : A -> M B) w : bind (ret a) k w = k a w.
Proof. reflexivity. Qed.

Section ExporterRun.
Context {R : Rounding} (L : Libraries).

Lemma export_chromadb_run (chroma_path collection_name output_file : string)
    (limit : option Z) (skip_projections : bool) (w : world)
    (c : Collection) (data : GetResult) :
  get_collection (PersistentClient L chroma_path) collection_name = Ok c ->
  fetch c limit = Ok data ->
  export_chromadb L chroma_path collection_name output_file limit skip_projections w
  = export_fetched L output_file skip_projections data
      (set_stdout w (stdout w ++ export_preamble chroma_path collection_name c data)).
Proof.
  intros Hget Hfetch. unfold export_chromadb.
  rewrite bind_print. cbv zeta. rewrite Hget.
  erewrite bind_return by reflexivity.
  rewrite bind_print. rewrite Hfetch.
  erewrite bind_return by reflexivity.
  rewrite bind_print.
  unfold export_fetched, export_preamble.
  cbn [set_stdout heap stdout files]. rewrite <- !app_assoc. reflexivity.
Qed.

End ExporterRun.

Lemma bind_inv_return {A B} (m : M A) (k : A -> M B) w b w' :
  bind m k w = (Return b, w') ->
  exists a w1, m w = (Return a, w1) /\ k a w1 = (Return b, w').
Proof.
  unfold bind. destruct (m w) as [[a|e|s] w1]; intros H; try discriminate.
  exists a, w1. split; [reflexivity | exact H].
Qed.

Section ProjectionRun.
Context {R : Rounding} (L : Libraries).

Lemma np_len_run w e X :
  heap w !! e = Some (Arr2 X) -> np_len e w = (Return (length X), w).
Proof.
  intros H. unfold np_len. erewrite bind_return by (apply load_run; exact H).
  reflexivity.
Qed.

Lemma fit_transform_inv algorithm w e X l w' :
  heap w !! e = Some (Arr2 X) ->
  fit_transform algorithm e w = (Return l, w') ->
  exists Y, algorithm X = Ok Y /\ l = length (heap w) /\
            w' = set_heap w (heap w ++ [Arr2 Y]).
Proof.
  intros He. unfold fit_transform.
  erewrite bind_return by (apply load_run; exact He).
  intros H. cbv [bind lift ret alloc raise] in H.
  destruct (algorithm X) as [Y|err]; [| discriminate].
  injection H as <- <-. exists Y. auto.
Qed.

Lemma fit_transform_raise algorithm w e X err :
  heap w !! e = Some (Arr2 X) ->
  algorithm X = Err err ->
  fit_transform algorithm e w = (Raise err, w).
Proof.
  intros He Ha. unfold fit_transform.
  erewrite bind_return by (apply load_run; exact He).
  cbv beta iota. rewrite Ha. reflexivity.
Qed.

(** A call of the normaliser that returns got a matrix with at least one
    row, and returns as many rows as it got. *)
Lemma normalize_projection_inv w l Y scale out w' :
  heap w !! l = Some (Arr2 Y) ->
  normalize_projection l scale w = (Return out, w') ->
  length out = length Y /\ Y <> [] /\
  exists ext, w' = set_heap w (heap w ++ ext).
Proof.
  intros Hl Hrun.
  destruct (normalize_projection_grows w l scale) as [ext Hext].
  rewrite Hrun in Hext. simpl in Hext.
  destruct Y as [|r rs].
  - exfalso. revert Hrun. unfold normalize_projection, np_min_axis0, reduce_axis0.
    erewrite bind_raise; [discriminate|].
    erewrite bind_return by (apply load_run; exact Hl). reflexivity.
  - destruct (same_width (col_min r rs) (r :: rs)) eqn:Hw.
    + rewrite (normalize_projection_run w l scale r rs Hl (same_width_rows _ _ _ Hw)) in Hrun.
      injection Hrun as <- _.
      split; [| split; [discriminate | exists ext; exact Hext]].
      apply normalized_rows_shape. eapply same_width_rows, Hw.
    + rewrite (normalize_projection_ragged w l scale r rs Hl Hw) in Hrun. discriminate.
Qed.

Lemma project_and_normalize algorithm w e X l w1 out w2 :
  fit_transform algorithm e w = (Return l, w1) ->
  normalize_projection l default_scale w1 = (Return out, w2) ->
  heap w !! e = Some (Arr2 X) ->
  exists Y, algorithm X = Ok Y /\ length out = length Y /\
            heap w2 !! e = Some (Arr2 X).
Proof.
  intros Hfit Hnorm He.
  destruct (fit_transform_inv _ _ _ _ _ _ He Hfit) as (Y & HY & -> & ->).
  assert (Hl : heap (set_heap w (heap w ++ [Arr2 Y])) !! length (heap w)
               = Some (Arr2 Y)) by heap_lookup.
  destruct (normalize_projection_inv _ _ Y _ _ _ Hl Hnorm)
    as (Hlen & _ & ext & ->).
  exists Y. split; [exact HY|]. split; [exact Hlen|].
  heap_norm. apply lookup_grown. exact He.
Qed.

(** A run of the driver that returns has called each algorithm once on the
    input matrix, t-SNE with the perplexity of line 73, and holds one
    normalised row for each row the algorithm returned. *)
Lemma compute_projections_inv w e X p w' :
  heap w !! e = Some (Arr2 X) ->
  compute_projections L e w = (Return p, w') ->
  exists P U T pca umap tsne,
    PCA_fit_transform L 3 42 X = Ok P /\
    UMAP_fit_transform L 3 15 (1 # 10) "cosine" 42 X = Ok U /\
    TSNE_fit_transform L 3 (perplexity_for (length X)) 42 1000 X = Ok T /\
    p = <["tsne" := tsne]> (<["umap" := umap]> (<["pca" := pca]> ∅)) /\
    length pca = length P /\ length umap = length U /\ length tsne = length T.
Proof.
  intros He Hrun. unfold compute_projections in Hrun.
  erewrite bind_return in Hrun by (apply np_len_run; exact He).
  rewrite !bind_print in Hrun.
  apply bind_inv_return in Hrun as (l1 & w1 & Hfit1 & Hrun).
  apply bind_inv_return in Hrun as (pca & w2 & Hn1 & Hrun).
  destruct (project_and_normalize _ _ e X _ _ _ _ Hfit1 Hn1 He) as (P & HP & Hl1 & He2).
  cbv zeta in Hrun. rewrite !bind_print in Hrun.
  apply bind_inv_return in Hrun as (l2 & w3 & Hfit2 & Hrun).
  apply bind_inv_return in Hrun as (umap & w4 & Hn2 & Hrun).
  destruct (project_and_normalize _ _ e X _ _ _ _ Hfit2 Hn2 He2) as (U & HU & Hl2 & He4).
  rewrite !bind_print in Hrun.
  apply bind_inv_return in Hrun as (l3 & w5 & Hfit3 & Hrun).
  apply bind_inv_return in Hrun as (tsne & w6 & Hn3 & Hrun).
  destruct (project_and_normalize _ _ e X _ _ _ _ Hfit3 Hn3 He4) as (T & HT & Hl3 & He6).
  rewrite bind_print in Hrun. unfold ret in Hrun. injection Hrun as <- <-.
  exists P, U, T, pca, umap, tsne. repeat split; assumption.
Qed.

End ProjectionRun.

(** ** The assembled output *)

Lemma build_documents_length (data_ids : list string)
    (documents : list (option string)) (embeddings : list (list Q))
    (metadatas : list (option (gmap string scalar))) :
  length (build_documents data_ids documents embeddings metadatas) = length data_ids.
Proof. unfold build_documents. apply length_imap. Qed.

Lemma py_float_list (e : list Q) : py_float <$> e = e.
Proof.
  induction e as [|x e IH]; [reflexivity|].
  rewrite fmap_cons, IH. reflexivity.
Qed.

(** The embeddings of the assembled documents are the source embeddings,
    row by row, when there is one id for each row. *)
Lemma build_documents_embeddings (data_ids : list string)
    (documents : list (option string)) (embeddings : list (list Q))
    (metadatas : list (option (gmap string scalar))) :
  length data_ids = length embeddings ->
  doc_embedding <$> build_documents data_ids documents embeddings metadatas
  = embeddings.
Proof.
  intros Hlen. apply list_eq. intros i.
  unfold build_documents. rewrite list_lookup_fmap, list_lookup_imap.
  destruct (data_ids !! i) as [id|] eqn:Hid; simpl.
  - destruct (lookup_lt_is_Some_2 embeddings i) as [e He].
    { rewrite <- Hlen. eapply lookup_lt_Some, Hid. }
    rewrite He. simpl. rewrite py_float_list. reflexivity.
  - symmetry. apply lookup_ge_None. rewrite <- Hlen.
    apply lookup_ge_None. exact Hid.
Qed.

Lemma np_array_inv (rows : list (list Q)) w arr w' :
  np_array rows w = (Return arr, w') ->
  arr = length (heap w) /\
  (rows = [] \/ rows <> [] /\ heap w' !! arr = Some (Arr2 (to_floats rows))) /\
  stdout w' = stdout w /\ files w' = files w.
Proof.
  unfold np_array. destruct rows as [|r rs].
  - unfold alloc. intros H. injection H as <- <-. auto.
  - destruct (same_width r (r :: rs)); [| discriminate].
    unfold alloc. intros H. injection H as <- <-.
    split; [reflexivity|]. split; [| split; reflexivity].
    right. split; [discriminate|]. cbn [heap set_heap]. apply lookup_fresh0.
Qed.

Section ExporterInversion.
Context {R : Rounding} (L : Libraries).

(** What a run of lines 131-182 that returns has written: the documents
    built from the fetched data, the header, and the projections when they
    were computed. *)
Lemma export_fetched_inv (output_file : string) (skip_projections : bool)
    (data : GetResult) (w w' : world) (u : unit) :
  export_fetched L output_file skip_projections data w = (Return u, w') ->
  exists out,
    files w' !! output_file = Some out /\
    meta_count (out_metadata out) = length (ids data) /\
    meta_embedding_dim (out_metadata out) = n_features (default [] (embeddings data)) /\
    out_documents out
      = build_documents (ids data) (default [] (documents data))
          (default [] (embeddings data)) (default [] (metadatas data)) /\
    ((negb skip_projections && (0 <? length (default [] (embeddings data))) = false /\
      out_projections out = None) \/
     (negb skip_projections && (0 <? length (default [] (embeddings data))) = true /\
      exists arr w1 w2 p,
        heap w1 !! arr = Some (Arr2 (to_floats (default [] (embeddings data)))) /\
        compute_projections L arr w1 = (Return p, w2) /\
        out_projections out = Some p)).
Proof.
  unfold export_fetched. cbv zeta. intros Hrun.
  apply bind_inv_return in Hrun as (arr & w1 & Harr & Hrun).
  apply np_array_inv in Harr as (-> & Hrows & _ & _).
  apply bind_inv_return in Hrun as (out & w2 & Hout & Hrun).
  exists out.
  assert (Hfile : files w' !! output_file = Some out).
  { cbv [bind write_json print] in Hrun. injection Hrun as _ <-.
    cbn [files set_stdout set_files]. apply lookup_insert_eq. }
  split; [exact Hfile|].
  destruct (negb skip_projections && (0 <? length (default [] (embeddings data))))
    eqn:Hcond.
  - apply bind_inv_return in Hout as (p & w3 & Hproj & Hret).
    unfold ret in Hret. injection Hret as <- <-. cbn.
    repeat split. right. split; [reflexivity|].
    exists (length (heap w)), w1, w3, p. repeat split; [| exact Hproj].
    destruct Hrows as [Hnil | [_ Hh]]; [| exact Hh].
    apply andb_true_iff in Hcond as [_ Hpos]. rewrite Hnil in Hpos. discriminate.
  - rewrite bind_print in Hout. unfold ret in Hout. injection Hout as <- _. cbn.
    repeat split. left. split; reflexivity.
Qed.

End ExporterInversion.

(** ** The pipeline: claims *)

Lemma get_collection_missing (client : Client) (name : string) :
  name ∉ coll_name <$> list_collections client ->
  get_collection client name
  = Err (NotFoundError ("Collection [" +:+ name +:+ "] does not exist")).
Proof.
  intros Hno. unfold get_collection.
  assert (Hfind : find (fun c => String.eqb (coll_name c) name)
                    (list_collections client) = None).
  { induction (list_collections client) as [|c cs IH]; [reflexivity|].
    rewrite fmap_cons in Hno. apply not_elem_of_cons in Hno as [Hc Hcs].
    simpl. destruct (String.eqb_spec (coll_name c) name) as [E|_].
    - congruence.
    - apply IH, Hcs. }
  rewrite Hfind. reflexivity.
Qed.


(** ** Running the projection driver forward *)

Ltac world_norm :=
  cbv beta; cbn [heap stdout files set_heap set_stdout set_files fst snd].

Section DriverRun.
Context {R : Rounding} (L : Libraries).

Lemma fit_transform_run algorithm w e X Y :
  heap w !! e = Some (Arr2 X) ->
  algorithm X = Ok Y ->
  fit_transform algorithm e w
  = (Return (length (heap w)), set_heap w (heap w ++ [Arr2 Y])).
Proof.
  intros He HY. unfold fit_transform.
  erewrite bind_return by (apply load_run; exact He).
  cbv beta iota. rewrite HY. reflexivity.
Qed.

Lemma normalize_projection_fresh w Y scale :
  normalisable Y ->
  normalize_projection (length (heap w)) scale (set_heap w (heap w ++ [Arr2 Y]))
  = (Return (normalized scale Y),
     set_heap w (heap w ++ Arr2 Y ::
                   match Y with
                   | r :: rs => normalize_garbage scale r rs
                   | [] => []
                   end)).
Proof.
  intros HY. destruct Y as [|r rs]; [contradiction|].
  rewrite (normalize_projection_run _ _ scale r rs); [| heap_lookup | exact HY].
  cbn [normalized]. f_equal. world_norm. rewrite <- app_assoc. reflexivity.
Qed.

Lemma compute_projections_run w e X P U T :
  heap w !! e = Some (Arr2 X) ->
  PCA_fit_transform L 3 42 X = Ok P -> normalisable P ->
  UMAP_fit_transform L 3 15 (1 # 10) "cosine" 42 X = Ok U -> normalisable U ->
  TSNE_fit_transform L 3 (perplexity_for (length X)) 42 1000 X = Ok T ->
  normalisable T ->
  exists ext,
    compute_projections L e w
    = (Return (<["tsne" := normalized default_scale T]>
                 (<["umap" := normalized default_scale U]>
                    (<["pca" := normalized default_scale P]> ∅))),
       mkWorld (heap w ++ ext) (stdout w ++ projection_log (length X)) (files w)).
Proof.
  intros He HP HnP HU HnU HT HnT. unfold compute_projections.
  erewrite bind_return by (apply np_len_run; exact He).
  rewrite !bind_print.
  erewrite bind_return
    by (eapply fit_transform_run; [world_norm; exact He | exact HP]).
  erewrite bind_return by (apply normalize_projection_fresh; exact HnP).
  cbv zeta. rewrite !bind_print.
  erewrite bind_return
    by (eapply fit_transform_run;
        [world_norm; apply lookup_grown; exact He | exact HU]).
  erewrite bind_return by (apply normalize_projection_fresh; exact HnU).
  rewrite !bind_print.
  erewrite bind_return
    by (eapply fit_transform_run;
        [world_norm; do 2 apply lookup_grown; exact He | exact HT]).
  erewrite bind_return by (apply normalize_projection_fresh; exact HnT).
  rewrite bind_print.
  eexists. unfold ret, projection_log. world_norm.
  rewrite <- !app_assoc. reflexivity.
Qed.

(** The driver when t-SNE raises after PCA and UMAP went through. *)
Lemma compute_projections_tsne_raise w e X P U err :
  heap w !! e = Some (Arr2 X) ->
  PCA_fit_transform L 3 42 X = Ok P -> normalisable P ->
  UMAP_fit_transform L 3 15 (1 # 10) "cosine" 42 X = Ok U -> normalisable U ->
  TSNE_fit_transform L 3 (perplexity_for (length X)) 42 1000 X = Err err ->
  exists ext,
    compute_projections L e w
    = (Raise err,
       mkWorld (heap w ++ ext) (stdout w ++ take 6 (projection_log (length X)))
         (files w)).
Proof.
  intros He HP HnP HU HnU HT. unfold compute_projections.
  erewrite bind_return by (apply np_len_run; exact He).
  rewrite !bind_print.
  erewrite bind_return
    by (eapply fit_transform_run; [world_norm; exact He | exact HP]).
  erewrite bind_return by (apply normalize_projection_fresh; exact HnP).
  cbv zeta. rewrite !bind_print.
  erewrite bind_return
    by (eapply fit_transform_run;
        [world_norm; apply lookup_grown; exact He | exact HU]).
  erewrite bind_return by (apply normalize_projection_fresh; exact HnU).
  rewrite !bind_print.
  erewrite bind_raise
    by (eapply fit_transform_raise;
        [world_norm; do 2 apply lookup_grown; exact He | exact HT]).
  eexists. world_norm. unfold projection_log.
  cbn [take]. rewrite <- !app_assoc. reflexivity.
Qed.

(** Line 73 is the clamp of the specification. *)
Lemma perplexity_for_clamp (n_samples : nat) :
  perplexity_for n_samples = clamp (Z.of_nat n_samples / 5) 5 30.
Proof.
  unfold perplexity_for, clamp.
  destruct (Z.ltb_spec (Z.of_nat n_samples / 5) 5);
    destruct (Z.ltb_spec 30 (Z.of_nat n_samples / 5)); lia.
Qed.

End DriverRun.

Lemma build_documents_ids (data_ids : list string)
    (documents : list (option string)) (embeddings : list (list Q))
    (metadatas : list (option (gmap string scalar))) :
  doc_id <$> build_documents data_ids documents embeddings metadatas = data_ids.
Proof.
  apply list_eq. intros i. unfold build_documents.
  rewrite list_lookup_fmap, list_lookup_imap.
  destruct (data_ids !! i); reflexivity.
Qed.

(** ** The pipeline: claims *)

Section PipelineClaims.
Context {R : Rounding} (L : Libraries).

(** C8. The perplexity [compute_projections] hands to the t-SNE constructor
    is clamp(N // 5, 5, 30) = min(30, max(5, N // 5)) for the N rows of its
    argument: 5 when N // 5 < 5, 30 when N // 5 > 30, N // 5 otherwise.  Once
    PCA and UMAP went through, how the driver ends is what t-SNE does when
    called with that perplexity, whatever the library: its exception is the
    driver's, its matrix, normalised, is the "tsne" entry. *)
Theorem tsne_perplexity_is_clamp (w : world) (e : loc)
    (X P U : list (list float)) :
  heap w !! e = Some (Arr2 X) ->
  PCA_fit_transform L 3 42 X = Ok P -> normalisable P ->
  UMAP_fit_transform L 3 15 (1 # 10) "cosine" 42 X = Ok U -> normalisable U ->
  let N := Z.of_nat (length X) in
  let perplexity := clamp (N / 5) 5 30 in
  perplexity = Z.min 30 (Z.max 5 (N / 5)) /\
  (if (N / 5 <? 5)%Z then perplexity = 5%Z
   else if (30 <? N / 5)%Z then perplexity = 30%Z
   else perplexity = (N / 5)%Z) /\
  (forall err,
     TSNE_fit_transform L 3 perplexity 42 1000 X = Err err ->
     exists w', compute_projections L e w = (Raise err, w')) /\
  (forall T,
     TSNE_fit_transform L 3 perplexity 42 1000 X = Ok T -> normalisable T ->
     exists p w',
       compute_projections L e w = (Return p, w') /\
       p !! "tsne" = Some (normalized default_scale T)).
Proof.
  intros He HP HnP HU HnU N perplexity. subst N perplexity.
  split; [symmetry; apply perplexity_for_clamp|].
  split.
  { unfold clamp. destruct (Z.of_nat (length X) / 5 <? 5)%Z; [reflexivity|].
    destruct (30 <? Z.of_nat (length X) / 5)%Z; reflexivity. }
  rewrite <- perplexity_for_clamp. split.
  - intros err HT.
    destruct (compute_projections_tsne_raise L w e X P U err He HP HnP HU HnU HT)
      as [ext Hrun].
    eexists. exact Hrun.
  - intros T HT HnT.
    destruct (compute_projections_run L w e X P U T He HP HnP HU HnU HT HnT)
      as [ext Hrun].
    eexists _, _. split; [exact Hrun | reflexivity].
Qed.

(** C10. With [limit = 0] the fetch is the call without a limit, and the
    whole run is the run with [limit] unset: it is lines 131-182 on all the
    [data] that [collection.get] returns without a limit, and the file it
    writes holds one document for each id of [data], in order. *)
Theorem export_limit_zero_is_unset (chroma_path collection_name output_file : string)
    (skip_projections : bool) (w : world) (c : Collection) (data : GetResult) :
  get_collection (PersistentClient L chroma_path) collection_name = Ok c ->
  coll_get c None = Ok data ->
  (forall c' : Collection, fetch c' (Some 0%Z) = coll_get c' None) /\
  export_chromadb L chroma_path collection_name output_file (Some 0%Z)
    skip_projections w
  = export_chromadb L chroma_path collection_name output_file None
      skip_projections w /\
  export_chromadb L chroma_path collection_name output_file (Some 0%Z)
    skip_projections w
  = export_fetched L output_file skip_projections data
      (set_stdout w (stdout w ++ export_preamble chroma_path collection_name c data)) /\
  (forall u w',
     export_chromadb L chroma_path collection_name output_file (Some 0%Z)
       skip_projections w = (Return u, w') ->
     exists out,
       files w' !! output_file = Some out /\
       doc_id <$> out_documents out = ids data /\
       meta_count (out_metadata out) = length (ids data)).
Proof.
  intros Hget Hdata.
  assert (Hrun : export_chromadb L chroma_path collection_name output_file
                   (Some 0%Z) skip_projections w
                 = export_fetched L output_file skip_projections data
                     (set_stdout w (stdout w ++
                        export_preamble chroma_path collection_name c data))).
  { apply export_chromadb_run; [exact Hget | exact Hdata]. }
  split; [intros c'; reflexivity|].
  split; [reflexivity|].
  split; [exact Hrun|].
  intros u w' Hret. rewrite Hrun in Hret.
  apply export_fetched_inv in Hret as (out & Hfile & Hcount & _ & Hdocs & _).
  exists out. split; [exact Hfile|].
  split; [rewrite Hdocs; apply build_documents_ids | exact Hcount].
Qed.

(** C6, amended. When no collection has the requested name, the run prints
    the error, then the names of the collections that exist, and ends by
    [exit(1)]: the non-zero status 1.  The file system is as before. *)
Theorem export_missing_collection (chroma_path collection_name output_file : string)
    (limit : option Z) (skip_projections : bool) (w : world) :
  collection_name ∉ coll_name <$> list_collections (PersistentClient L chroma_path) ->
  exists err w',
    export_chromadb L chroma_path collection_name output_file limit
      skip_projections w = (SystemExit 1, w') /\
    exit_status (fst (export_chromadb L chroma_path collection_name output_file
                        limit skip_projections w)) = 1%Z /\
    exit_status (fst (export_chromadb L chroma_path collection_name output_file
                        limit skip_projections w)) <> 0%Z /\
    stdout w' = stdout w ++
      [ "Connecting to ChromaDB at " +:+ chroma_path +:+ "...";
        "Error: Could not get collection '" +:+ collection_name +:+ "': " +:+ err;
        "Available collections: " +:+
          py_repr_list (coll_name <$> list_collections (PersistentClient L chroma_path)) ] /\
    files w' = files w /\
    heap w' = heap w.
Proof.
  intros Hno.
  assert (Hrun : export_chromadb L chroma_path collection_name output_file limit
                   skip_projections w
                 = (SystemExit 1,
                    set_stdout w (stdout w ++
                      [ "Connecting to ChromaDB at " +:+ chroma_path +:+ "...";
                        "Error: Could not get collection '" +:+ collection_name
                          +:+ "': " +:+ exn_str (NotFoundError
                               ("Collection [" +:+ collection_name +:+ "] does not exist"));
                        "Available collections: " +:+
                          py_repr_list (coll_name <$>
                            list_collections (PersistentClient L chroma_path)) ]))).
  { unfold export_chromadb. rewrite bind_print. cbv zeta.
    rewrite (get_collection_missing _ _ Hno).
    cbv [bind try_except lift raise print exit].
    cbn [stdout files heap set_stdout]. rewrite <- !app_assoc. reflexivity. }
  eexists _, _. rewrite Hrun.
  split; [reflexivity|]. split; [reflexivity|]. split; [discriminate|].
  repeat split.
Qed.

(** C5. On an empty collection the run returns; the file written holds no
    documents and no "projections" key, and its count is 0.  Besides the
    empty embeddings array nothing is allocated: no projection is
    computed. *)
Theorem export_empty_collection (chroma_path collection_name output_file : string)
    (limit : option Z) (skip_projections : bool) (w : world)
    (c : Collection) (data : GetResult) :
  get_collection (PersistentClient L chroma_path) collection_name = Ok c ->
  fetch c limit = Ok data ->
  ids data = [] ->
  default [] (embeddings data) = [] ->
  exists w' out,
    export_chromadb L chroma_path collection_name output_file limit
      skip_projections w = (Return tt, w') /\
    files w' = <[output_file := out]> (files w) /\
    out_documents out = [] /\
    out_projections out = None /\
    meta_count (out_metadata out) = 0 /\
    meta_embedding_dim (out_metadata out) = 0 /\
    heap w' = heap w ++ [Arr1 []] /\
    stdout w' = stdout w ++ export_preamble chroma_path collection_name c data
                  ++ [ "Skipping projection computation.";
                       "Exported to " +:+ output_file +:+ " ("
                         +:+ file_size_mb L out +:+ " MB)" ].
Proof.
  intros Hget Hfetch Hids Hemb.
  rewrite (export_chromadb_run L _ _ _ _ _ _ c data Hget Hfetch).
  unfold export_fetched. rewrite Hemb, Hids. cbv zeta.
  rewrite andb_false_r.
  eexists _, _. split; [reflexivity|].
  cbn [files heap stdout set_stdout set_files set_heap out_documents
       out_projections out_metadata meta_count meta_embedding_dim].
  rewrite <- !app_assoc. repeat split.
Qed.

(** C4. A run with projections, over N >= 1 index-aligned rows, that
    writes its output writes N documents, a count of N and, for each of the
    three methods, N projected rows; the libraries are assumed to return one
    row per input row. *)
Theorem export_alignment (chroma_path collection_name output_file : string)
    (limit : option Z) (w w' : world) (c : Collection) (data : GetResult)
    (E : list (list Q)) (N : nat) :
  keeps_rows (PCA_fit_transform L 3 42) ->
  keeps_rows (UMAP_fit_transform L 3 15 (1 # 10) "cosine" 42) ->
  keeps_rows (TSNE_fit_transform L 3 (perplexity_for N) 42 1000) ->
  get_collection (PersistentClient L chroma_path) collection_name = Ok c ->
  fetch c limit = Ok data ->
  embeddings data = Some E ->
  length (ids data) = N -> length E = N -> 1 <= N ->
  export_chromadb L chroma_path collection_name output_file limit false w
    = (Return tt, w') ->
  exists out projections,
    files w' !! output_file = Some out /\
    length (out_documents out) = N /\
    meta_count (out_metadata out) = N /\
    out_projections out = Some projections /\
    dom projections = {["pca"; "umap"; "tsne"]} /\
    forall m rows, projections !! m = Some rows -> length rows = N.
Proof.
  intros Kp Ku Kt Hget Hfetch Hemb Hids HE HN Hrun.
  rewrite (export_chromadb_run L _ _ _ _ _ _ c data Hget Hfetch) in Hrun.
  apply export_fetched_inv in Hrun
    as (out & Hfile & Hcount & _ & Hdocs & Hproj).
  rewrite Hemb in Hproj. cbn [default from_option id] in Hproj.
  destruct Hproj as [[Hcond _] | (_ & arr & w1 & w2 & p & Harr & Hp & Hout)].
  { cbn [negb andb] in Hcond. apply Nat.ltb_ge in Hcond. lia. }
  apply (compute_projections_inv L _ _ (to_floats E)) in Hp
    as (P & U & T & pca & umap & tsne & HP & HU & HT & -> & Hl1 & Hl2 & Hl3);
    [| exact Harr].
  assert (HlE : length (to_floats E) = N)
    by (unfold to_floats; rewrite length_fmap; exact HE).
  rewrite HlE in HT.
  apply Kp in HP. apply Ku in HU. apply Kt in HT.
  rewrite HlE in HP, HU, HT.
  exists out, (<["tsne" := tsne]> (<["umap" := umap]> (<["pca" := pca]> ∅))).
  split; [exact Hfile|].
  split; [rewrite Hdocs, build_documents_length; exact Hids|].
  split; [rewrite Hcount; exact Hids|].
  split; [exact Hout|].
  split.
  { rewrite !dom_insert_L, dom_empty_L. set_solver. }
  intros m rows Hm.
  apply lookup_insert_Some in Hm as [[_ <-] | [_ Hm]]; [lia|].
  apply lookup_insert_Some in Hm as [[_ <-] | [_ Hm]]; [lia|].
  apply lookup_insert_Some in Hm as [[_ <-] | [_ Hm]]; [lia|].
  rewrite lookup_empty in Hm. discriminate.
Qed.

(** C7. In the file a run over index-aligned rows writes, the embedding of
    document i is the source embedding i, value for value and in order; this
    holds for every N, so for N >= 1. *)
Theorem export_embeddings_round_trip (chroma_path collection_name output_file : string)
    (limit : option Z) (skip_projections : bool) (w w' : world)
    (c : Collection) (data : GetResult) (E : list (list Q)) :
  get_collection (PersistentClient L chroma_path) collection_name = Ok c ->
  fetch c limit = Ok data ->
  embeddings data = Some E ->
  length (ids data) = length E ->
  export_chromadb L chroma_path collection_name output_file limit
    skip_projections w = (Return tt, w') ->
  exists out,
    files w' !! output_file = Some out /\
    doc_embedding <$> out_documents out = E /\
    forall i j e v, E !! i = Some e -> e !! j = Some v ->
      exists doc, out_documents out !! i = Some doc /\
                  doc_embedding doc !! j = Some v.
Proof.
  intros Hget Hfetch Hemb Hids Hrun.
  rewrite (export_chromadb_run L _ _ _ _ _ _ c data Hget Hfetch) in Hrun.
  apply export_fetched_inv in Hrun as (out & Hfile & _ & _ & Hdocs & _).
  rewrite Hemb in Hdocs. cbn [default from_option id] in Hdocs.
  assert (Hround : doc_embedding <$> out_documents out = E).
  { rewrite Hdocs. apply build_documents_embeddings. exact Hids. }
  exists out. split; [exact Hfile|]. split; [exact Hround|].
  intros i j e v Hi Hj. rewrite <- Hround in Hi.
  apply list_lookup_fmap_Some in Hi as (doc & -> & Hdoc).
  exists doc. split; assumption.
Qed.

(** C2, at the code. scikit-learn rejects 3 components for a single sample,
    and nothing in [compute_projections] guards the call: on a one-row
    matrix the driver raises at the PCA step and produces no projection. *)
Theorem compute_projections_single_document (w : world) (e : loc) (x : list float) :
  pca_validates L ->
  heap w !! e = Some (Arr2 [x]) ->
  exists msg w',
    compute_projections L e w = (Raise (ValueError msg), w') /\
    files w' = files w.
Proof.
  intros Hval He.
  destruct (Hval 3 42%Z [x]) as [msg Hmsg].
  { apply Nat.min_lt_iff. left. simpl. lia. }
  exists msg. eexists. split.
  - unfold compute_projections.
    erewrite bind_return by (apply np_len_run; exact He).
    rewrite !bind_print.
    erewrite bind_raise; [reflexivity|].
    apply fit_transform_raise with (X := [x]); [exact He | exact Hmsg].
  - reflexivity.
Qed.

(** Line 73 on small inputs: up to five samples the perplexity is 5, not
    below the number of samples as t-SNE requires. *)
Lemma perplexity_not_below_samples (n_samples : nat) :
  n_samples <= 5 -> (Z.of_nat n_samples <= perplexity_for n_samples)%Z.
Proof. unfold perplexity_for. intros H. lia. Qed.

End PipelineClaims.


(** ** The claims on the sample store *)

Lemma leading_components_keeps_rows (n_components : nat) :
  keeps_rows (fun X => Ok (leading_components n_components X)).
Proof.
  intros X Y H. injection H as <-. unfold leading_components. apply length_fmap.
Qed.

Lemma sample_PCA_keeps_rows n_components random_state :
  keeps_rows (sample_PCA n_components random_state).
Proof.
  intros X Y. unfold sample_PCA.
  destruct (n_components <=? Nat.min (length X) (n_features X)); [| discriminate].
  apply leading_components_keeps_rows.
Qed.

Lemma sample_UMAP_keeps_rows n_components n_neighbors min_dist metric random_state :
  keeps_rows (sample_UMAP n_components n_neighbors min_dist metric random_state).
Proof. apply leading_components_keeps_rows. Qed.

Lemma sample_TSNE_keeps_rows n_components perplexity random_state max_iter :
  keeps_rows (sample_TSNE n_components perplexity random_state max_iter).
Proof.
  intros X Y. unfold sample_TSNE.
  destruct (perplexity <? Z.of_nat (length X))%Z; [| discriminate].
  apply leading_components_keeps_rows.
Qed.

Lemma sample_pca_validates : pca_validates sample_libraries.
Proof.
  intros k seed X Hk. eexists. simpl. unfold sample_PCA.
  destruct (Nat.leb_spec k (Nat.min (length X) (n_features X))); [lia | reflexivity].
Qed.

(** C4 on the six sample documents. *)
Lemma export_alignment_witness :
  exists out projections,
    files (snd (sample_run "conversations" None false))
      !! "public/data/claude-memory.json" = Some out /\
    length (out_documents out) = 6 /\
    meta_count (out_metadata out) = 6 /\
    out_projections out = Some projections /\
    dom projections = {["pca"; "umap"; "tsne"]} /\
    forall m rows, projections !! m = Some rows -> length rows = 6.
Proof.
  apply (export_alignment (R := binary64) sample_libraries
           "~/.claude-memory/chroma" "conversations" "public/data/claude-memory.json"
           None empty_world (snd (sample_run "conversations" None false))
           sample_collection sample_data sample_embeddings 6).
  - apply sample_PCA_keeps_rows.
  - apply sample_UMAP_keeps_rows.
  - apply sample_TSNE_keeps_rows.
  - reflexivity.
  - reflexivity.
  - reflexivity.
  - reflexivity.
  - reflexivity.
  - lia.
  - vm_compute. reflexivity.
Defined.

(** C7 on the six sample documents. *)
Lemma export_embeddings_round_trip_witness :
  exists out,
    files (snd (sample_run "conversations" None false))
      !! "public/data/claude-memory.json" = Some out /\
    doc_embedding <$> out_documents out = sample_embeddings /\
    forall i j e v, sample_embeddings !! i = Some e -> e !! j = Some v ->
      exists doc, out_documents out !! i = Some doc /\
                  doc_embedding doc !! j = Some v.
Proof.
  apply (export_embeddings_round_trip (R := binary64) sample_libraries
           "~/.claude-memory/chroma" "conversations" "public/data/claude-memory.json"
           None false empty_world (snd (sample_run "conversations" None false))
           sample_collection sample_data sample_embeddings).
  - reflexivity.
  - reflexivity.
  - reflexivity.
  - reflexivity.
  - vm_compute. reflexivity.
Defined.

(** C5 on the empty sample collection. *)
Lemma export_empty_collection_witness :
  exists w' out,
    sample_run "drafts" None false = (Return tt, w') /\
    files w' = <["public/data/claude-memory.json" := out]> (files empty_world) /\
    out_documents out = [] /\
    out_projections out = None /\
    meta_count (out_metadata out) = 0 /\
    meta_embedding_dim (out_metadata out) = 0 /\
    heap w' = heap empty_world ++ [Arr1 []] /\
    stdout w' = stdout empty_world
                  ++ export_preamble "~/.claude-memory/chroma" "drafts" empty_collection
                       (mkGetResult [] (Some []) (Some []) (Some []))
                  ++ [ "Skipping projection computation.";
                       "Exported to " +:+ "public/data/claude-memory.json" +:+ " ("
                         +:+ file_size_mb sample_libraries out +:+ " MB)" ].
Proof.
  apply (export_empty_collection (R := binary64) sample_libraries
           "~/.claude-memory/chroma" "drafts" "public/data/claude-memory.json"
           None false empty_world empty_collection
           (mkGetResult [] (Some []) (Some []) (Some [])));
    reflexivity.
Defined.

(** C6 on the sample store, which has no collection "archive". *)
Lemma export_missing_collection_witness :
("archive" ∉ coll_name <$> list_collections sample_client) /\
  exists err w',
    sample_run "archive" (Some 10%Z) false = (SystemExit 1, w') /\
    exit_status (fst (sample_run "archive" (Some 10%Z) false)) = 1%Z /\
    exit_status (fst (sample_run "archive" (Some 10%Z) false)) <> 0%Z /\
    stdout w' = stdout empty_world ++
      [ "Connecting to ChromaDB at ~/.claude-memory/chroma...";
        "Error: Could not get collection '" +:+ "archive" +:+ "': " +:+ err;
        "Available collections: " +:+
          py_repr_list (coll_name <$> list_collections sample_client) ] /\
    files w' = files empty_world /\
    heap w' = heap empty_world.
Proof.
  assert (H : "archive" ∉ coll_name <$> list_collections sample_client).
  { intros Hin. cbn in Hin.
    repeat (apply elem_of_cons in Hin as [Hin|Hin]; [discriminate|]).
    apply elem_of_nil in Hin. exact Hin. }
  split; [exact H|].
  apply (export_missing_collection (R := binary64) sample_libraries
           "~/.claude-memory/chroma" "archive" "public/data/claude-memory.json"
           (Some 10%Z) false empty_world H).
Defined.

(** C8 on the six sample documents: N // 5 = 1, the perplexity is 5, and
    the "tsne" entry is the normalisation of what t-SNE returns for it. *)
Lemma tsne_perplexity_is_clamp_witness :
  heap loaded_world !! 0 = Some (Arr2 (to_floats sample_embeddings)) /\
  normalisable (leading_components 3 (to_floats sample_embeddings)) /\
  clamp (Z.of_nat (length (to_floats sample_embeddings)) / 5) 5 30 = 5%Z /\
  exists p w',
    compute_projections (R := binary64) sample_libraries 0 loaded_world
      = (Return p, w') /\
    p !! "tsne"
    = Some (normalized (R := binary64) default_scale
              (leading_components 3 (to_floats sample_embeddings))).
Proof.
  assert (Hn : normalisable (leading_components 3 (to_floats sample_embeddings)))
    by (cbn; repeat constructor).
  split; [reflexivity|]. split; [exact Hn|]. split; [reflexivity|].
  destruct (tsne_perplexity_is_clamp (R := binary64) sample_libraries
              loaded_world 0 (to_floats sample_embeddings)
              (leading_components 3 (to_floats sample_embeddings))
              (leading_components 3 (to_floats sample_embeddings))
              eq_refl eq_refl Hn eq_refl Hn)
    as (_ & _ & _ & Hok).
  apply Hok; [reflexivity | exact Hn].
Defined.

(** C10 on the sample store: [--limit 0] exports all six documents. *)
Lemma export_limit_zero_is_unset_witness :
  get_collection sample_client "conversations" = Ok sample_collection /\
  coll_get sample_collection None = Ok sample_data /\
  sample_run "conversations" (Some 0%Z) true = sample_run "conversations" None true /\
  exists out,
    files (snd (sample_run "conversations" (Some 0%Z) true))
      !! "public/data/claude-memory.json" = Some out /\
    doc_id <$> out_documents out = ["a"; "b"; "c"; "d"; "e"; "f"] /\
    meta_count (out_metadata out) = 6.
Proof.
  split; [reflexivity|]. split; [reflexivity|].
  destruct (export_limit_zero_is_unset (R := binary64) sample_libraries
              "~/.claude-memory/chroma" "conversations"
              "public/data/claude-memory.json" true empty_world
              sample_collection sample_data eq_refl eq_refl)
    as (_ & Hsame & _ & Hall).
  split; [exact Hsame|].
  apply (Hall tt (snd (sample_run "conversations" (Some 0%Z) true))).
  vm_compute. reflexivity.
Defined.

(** [--limit 0] on the sample store, evaluated. *)
Example export_limit_zero_sample :
  (meta_count ∘ out_metadata) <$>
    files (snd (sample_run "conversations" (Some 0%Z) true))
      !! "public/data/claude-memory.json"
  = Some 6.
Proof. vm_compute. reflexivity. Qed.

(** What the run for a missing collection prints. *)
Example export_missing_collection_sample :
  sample_run "archive" None false
  = (SystemExit 1,
     mkWorld []
       [ "Connecting to ChromaDB at ~/.claude-memory/chroma...";
         "Error: Could not get collection 'archive': Collection [archive] does not exist";
         "Available collections: ['conversations', 'drafts']" ]
       ∅).
Proof. vm_compute. reflexivity. Qed.

(** C2 on the sample store: a one-row matrix. *)
Lemma compute_projections_single_document_witness :
  pca_validates sample_libraries /\
  heap (mkWorld [Arr2 [[Fin 1; Fin 0; Fin 0; Fin 0]]] [] ∅) !! 0 = Some (Arr2 [[Fin 1; Fin 0; Fin 0; Fin 0]]) /\
  exists msg w',
    compute_projections (R := binary64) sample_libraries 0
      (mkWorld [Arr2 [[Fin 1; Fin 0; Fin 0; Fin 0]]] [] ∅)
    = (Raise (ValueError msg), w') /\
    files w' = files (mkWorld [Arr2 [[Fin 1; Fin 0; Fin 0; Fin 0]]] [] ∅).
Proof.
  split; [exact sample_pca_validates|]. split; [reflexivity|].
  apply (compute_projections_single_document (R := binary64) sample_libraries
           (mkWorld [Arr2 [[Fin 1; Fin 0; Fin 0; Fin 0]]] [] ∅) 0 [Fin 1; Fin 0; Fin 0; Fin 0]
           sample_pca_validates).
  reflexivity.
Defined.

(** The whole exporter at [--limit 1]: the run ends with the exception and
    writes no file. *)
Example export_single_document_sample :
  sample_run "conversations" (Some 1%Z) false
  = (Raise (ValueError "n_components must be between 0 and min(n_samples, n_features)"),
     mkWorld [Arr2 [[Fin 1; Fin 0; Fin 0; Fin 0]]]
       [ "Connecting to ChromaDB at ~/.claude-memory/chroma...";
         "Found collection 'conversations' with 6 documents";
         "Exporting 1 documents...";
         "Computing projections for 1 documents...";
         "  Computing PCA..." ]
       ∅).
Proof. vm_compute. reflexivity. Qed.

(** Lines 22-39: a missing dependency ends the script by [exit(1)] too,
    whatever the arguments. *)
Lemma dependency_missing_exit {R : Rounding} (L : Libraries) (i : Installed)
    (args : Args) (w : world) :
  dependency_missing i ->
  exit_status (fst (script L i args w)) = 1%Z.
Proof.
  unfold dependency_missing. destruct i as [[|] [|] [|]]; simpl; intros H;
    try discriminate; reflexivity.
Qed.

(** C6 as stated. The status of the abort is not a status of its own: on
    the sample store the run for the missing collection "archive" and the
    run without umap-learn both end with status 1. *)
Lemma missing_collection_claim_fails : ~ missing_collection_claim.
Proof.
  intros Hclaim.
  destruct (Hclaim binary64 sample_libraries "~/.claude-memory/chroma"
              "archive" "public/data/claude-memory.json" None false empty_world)
    as (status & err & w' & Hrun & _ & Hdistinct & _).
  { intros Hin. cbn in Hin.
    repeat (apply elem_of_cons in Hin as [Hin|Hin]; [discriminate|]).
    apply elem_of_nil in Hin. exact Hin. }
  vm_compute in Hrun. injection Hrun as <- _.
  apply (Hdistinct (mkInstalled true true false)
           (mkArgs "~/.claude-memory/chroma" "conversations"
              "public/data/claude-memory.json" None false)
           empty_world); [reflexivity|].
  apply dependency_missing_exit. reflexivity.
Qed.

Example dependency_missing_sample :
  fst (script (R := binary64) sample_libraries (mkInstalled true true false)
         (mkArgs "~/.claude-memory/chroma" "conversations"
            "public/data/claude-memory.json" None false)
         empty_world)
  = SystemExit 1.
Proof. vm_compute. reflexivity. Qed.


(** * Further properties *)

(** ** The normaliser: further properties *)

Lemma fle_fmin (x a b : float) : fle x a -> fle x b -> fle x (fmin a b).
Proof.
  destruct x, a, b; simpl; try contradiction; auto. apply Q.min_glb.
Qed.

Lemma fle_fmax_of (x a b : float) : fle x a -> fle x b -> fle x (fmax_of a b).
Proof.
  destruct x, a, b; simpl; try contradiction; auto.
  intros H _. eapply Qle_trans; [exact H | apply Q.le_max_l].
Qed.

Lemma fmax_of_fle (x a b : float) : fle a x -> fle b x -> fle (fmax_of a b) x.
Proof.
  destruct x, a, b; simpl; try contradiction; auto. apply Q.max_lub.
Qed.

Section NormaliserFurther.
Context {R : Rounding} {RL : RoundingLaws R}.
Local Open Scope Q_scope.

(** X1. An array without rows has no minimum: the call raises [ValueError]
    at line 90, before anything is allocated, and leaves the world as it
    was. *)
Theorem normalize_projection_no_rows (w : world) (points : loc) (scale : Q) :
  heap w !! points = Some (Arr2 []) ->
  exists msg,
    normalize_projection points scale w = (Raise (ValueError msg), w).
Proof.
  intros Hp. eexists. unfold normalize_projection, np_min_axis0, reduce_axis0.
  erewrite bind_raise; [reflexivity|].
  erewrite bind_return by (apply load_run; exact Hp). reflexivity.
Qed.


(** X3. A point that is lowest on an axis is sent to -0.5 * scale on that
    axis, whatever the other points are. *)
Theorem normalize_projection_lowest (w : world) (points : loc)
    (pts : list (list float)) (scale : Q) (c i j : nat) (row : list float)
    (x : Q) :
  heap w !! points = Some (Arr2 pts) ->
  Forall (fun row => length row = c) pts ->
  pts !! i = Some row -> row !! j = Some (Fin x) ->
  (forall row' x', row' ∈ pts -> row' !! j = Some x' -> fle (Fin x) x') ->
  exists out w' out_row v,
    normalize_projection points scale w = (Return out, w') /\
    out !! i = Some out_row /\ out_row !! j = Some v /\
    same_float v (fmul (Fin (- (1 # 2))) (Fin scale)).
Proof.
  intros Hp Hshape Hrow Hx Hlow. destruct pts as [|r rs]; [discriminate|].
  pose proof (rows_of_width c r rs Hshape) as Hw.
  destruct (normalized_rows_at scale r rs i j row (Fin x) Hw Hrow Hx)
    as (out_row & mn & mx & Hout & Hv & Hmn & Hmx).
  assert (Hin : row ∈ r :: rs) by (eapply list_elem_of_lookup_2, Hrow).
  assert (Hmn_lo : fle (Fin x) mn).
  { apply (col_reduce_closed fmin (fun y => fle (Fin x) y))
      with (rs := rs) (r := r) (j := j);
      [intros a b; apply fle_fmin | exact Hmn | exact Hlow]. }
  assert (Hmx_lo : fle (Fin x) mx).
  { apply (col_reduce_closed fmax_of (fun y => fle (Fin x) y))
      with (rs := rs) (r := r) (j := j);
      [intros a b; apply fle_fmax_of | exact Hmx | exact Hlow]. }
  assert (Emn : exists m, mn = Fin m /\ m == x).
  { destruct (col_min_below r rs j mn (Fin x) row Hmn Hin Hx) as [->|Hle].
    - simpl in Hmn_lo. contradiction.
    - destruct mn as [m| | |]; simpl in Hmn_lo, Hle; try contradiction.
      exists m. split; [reflexivity | lra]. }
  destruct Emn as (m & -> & Em).
  eexists _, _, out_row, _.
  split; [apply normalize_projection_run; eassumption|].
  split; [exact Hout|]. split; [exact Hv|].
  apply normalized_entry_at_min; assumption.
Qed.

(** X4. A point that is highest on an axis is sent to +0.5 * scale on that
    axis, provided the ranges are finite and the axis is not constant: some
    point's difference to the highest does not round to zero. *)
Theorem normalize_projection_highest (w : world) (points : loc)
    (pts : list (list float)) (scale : Q) (c i j : nat)
    (row other : list float) (x y : float) :
  heap w !! points = Some (Arr2 pts) ->
  Forall (fun row => length row = c) pts ->
  pts !! i = Some row -> row !! j = Some x ->
  (forall row' x', row' ∈ pts -> row' !! j = Some x' -> fle x' x) ->
  other ∈ pts -> other !! j = Some y -> ~ same_float (fsub x y) (Fin 0) ->
  Forall finite (axis_ranges pts) ->
  exists out w' out_row v,
    normalize_projection points scale w = (Return out, w') /\
    out !! i = Some out_row /\ out_row !! j = Some v /\
    same_float v (fmul (Fin (1 # 2)) (Fin scale)).
Proof.
  intros Hp Hshape Hrow Hx Hhigh Hother Hy Hdiff Hfin.
  destruct pts as [|r rs]; [discriminate|].
  pose proof (rows_of_width c r rs Hshape) as Hw.
  destruct (normalized_rows_at scale r rs i j row x Hw Hrow Hx)
    as (out_row & mn & mx & Hout & Hv & Hmn & Hmx).
  assert (Hin : row ∈ r :: rs) by (eapply list_elem_of_lookup_2, Hrow).
  assert (Hmx_hi : fle mx x).
  { apply (col_reduce_closed fmax_of (fun z => fle z x))
      with (rs := rs) (r := r) (j := j);
      [intros a b; apply fmax_of_fle | exact Hmx | exact Hhigh]. }
  destruct (finite_axis r rs j row x mn mx Hfin Hin Hx Hmn Hmx)
    as (q & a & b & g & -> & -> & -> & [Hbq Hqa] & Hg).
  destruct (finite_axis r rs j other y (Fin b) (Fin a) Hfin Hother Hy Hmn Hmx)
    as (y' & a' & b' & g' & -> & Eb & Ea & [Hby Hya] & _).
  injection Eb as <-. injection Ea as <-.
  pose proof (Hhigh other (Fin y') Hother Hy) as Hyx.
  simpl in Hmx_hi, Hyx.
  pose proof fmax_half_int as Hf.
  destruct (round_Fin _ _ Hg) as [-> [Hg1 Hg2]].
  eexists _, _, out_row, _.
  split; [apply normalize_projection_run; eassumption|].
  split; [exact Hout|]. split; [exact Hv|].
  rewrite (normalized_entry_rational scale q b a _ ltac:(lra) Hqa Hg).
  cbn [fmul]. unfold round. apply overflow_proper.
  apply rational_entry_at_max; [lra|].
  intros Hzero. apply Hdiff. cbn [fsub].
  assert (H0 : 0 <= rnd (q - y')) by (apply rnd_nonneg; lra).
  assert (H1 : rnd (q - y') <= rnd (a - b)) by (apply rnd_mono; lra).
  rewrite round_finite by lra. simpl. lra.
Qed.


End NormaliserFurther.

Lemma sample_points_axis0 (row : list float) (x : float) :
  row ∈ to_floats sample_points -> row !! 0 = Some x ->
  fle (Fin (- (3))) x /\ fle x (Fin 4).
Proof.
  unfold sample_points. intros Hrow Hx. cbn in Hrow.
  repeat (apply elem_of_cons in Hrow as [->|Hrow];
          [simpl in Hx; injection Hx as <-; split; simpl; discriminate|]).
  apply elem_of_nil in Hrow. contradiction.
Qed.

Lemma normalize_projection_no_rows_witness :
  heap hollow_world !! 0 = Some (Arr2 []) /\
  exists msg,
    normalize_projection (R := binary64) 0 default_scale hollow_world
    = (Raise (ValueError msg), hollow_world).
Proof.
  split; [reflexivity|].
  apply (normalize_projection_no_rows (R := binary64) hollow_world 0 default_scale).
  reflexivity.
Defined.

(** The message NumPy gives for the empty array names the reduction. *)
Example normalize_projection_no_rows_sample :
  fst (normalize_projection (R := binary64) 0 default_scale hollow_world)
  = Raise (ValueError
             "zero-size array to reduction operation minimum which has no identity").
Proof. vm_compute. reflexivity. Qed.


Lemma normalize_projection_lowest_witness :
  exists out w' out_row v,
    normalize_projection (R := binary64) 1 default_scale sample_world
      = (Return out, w') /\
    out !! 2 = Some out_row /\ out_row !! 0 = Some v /\
    same_float v (fmul (R := binary64) (Fin (- (1 # 2))) (Fin default_scale)).
Proof.
  apply (normalize_projection_lowest (R := binary64) sample_world 1
           (to_floats sample_points) default_scale 3 2 0
           [Fin (- (3)); Fin 2; Fin 0]%Q (- (3))%Q);
    [reflexivity | repeat constructor | reflexivity | reflexivity |].
  intros row' x' Hrow' Hx'. apply (sample_points_axis0 row' x' Hrow' Hx').
Defined.

Lemma normalize_projection_highest_witness :
  exists out w' out_row v,
    normalize_projection (R := binary64) 1 default_scale sample_world
      = (Return out, w') /\
    out !! 1 = Some out_row /\ out_row !! 0 = Some v /\
    same_float v (fmul (R := binary64) (Fin (1 # 2)) (Fin default_scale)).
Proof.
  apply (normalize_projection_highest (R := binary64) sample_world 1
           (to_floats sample_points) default_scale 3 1 0
           [Fin 4; Fin 2; Fin (9 # 2)]%Q [Fin 1; Fin 2; Fin 3]%Q (Fin 4) (Fin 1));
    [reflexivity | repeat constructor | reflexivity | reflexivity | |
     left | reflexivity | intros H; vm_compute in H; discriminate |
     vm_compute; repeat constructor].
  intros row' x' Hrow' Hx'. apply (sample_points_axis0 row' x' Hrow' Hx').
Defined.


(** ** Computations that only allocate and print *)

Lemma grows_refl w : grows w w.
Proof. exists [], []. rewrite !app_nil_r. destruct w; reflexivity. Qed.

Lemma grows_trans w1 w2 w3 : grows w1 w2 -> grows w2 w3 -> grows w1 w3.
Proof.
  intros (e1 & l1 & ->) (e2 & l2 & ->). exists (e1 ++ e2), (l1 ++ l2).
  cbn [heap stdout files]. rewrite !app_assoc. reflexivity.
Qed.

Lemma grows_files w w' : grows w w' -> files w' = files w.
Proof. intros (e & l & ->). reflexivity. Qed.

Lemma grows_heap w w' : grows w w' -> take (length (heap w)) (heap w') = heap w.
Proof. intros (e & l & ->). cbn [heap]. apply take_app_length. Qed.

Lemma grows_stdout w w' : grows w w' -> take (length (stdout w)) (stdout w') = stdout w.
Proof. intros (e & l & ->). cbn [stdout]. apply take_app_length. Qed.

Lemma grows_lookup w w' l a : grows w w' -> heap w !! l = Some a -> heap w' !! l = Some a.
Proof. intros (e & ls & ->) H. cbn [heap]. apply lookup_grown, H. Qed.

Lemma quiet_ret {A} (a : A) : quiet (ret a).
Proof. intros w. apply grows_refl. Qed.

Lemma quiet_raise {A} (e : exn) : quiet (raise (A := A) e).
Proof. intros w. apply grows_refl. Qed.

Lemma quiet_exit {A} (s : Z) : quiet (exit (A := A) s).
Proof. intros w. apply grows_refl. Qed.

Lemma quiet_lift {A} (r : pyresult A) : quiet (lift r).
Proof. destruct r; [apply quiet_ret | apply quiet_raise]. Qed.

Lemma quiet_print (line : string) : quiet (print line).
Proof.
  intros w. exists [], [line]. cbn [snd print set_stdout heap stdout files].
  rewrite app_nil_r. reflexivity.
Qed.

Lemma quiet_alloc (a : ndarray) : quiet (alloc a).
Proof.
  intros w. exists [a], []. cbn [snd alloc set_heap heap stdout files].
  rewrite app_nil_r. reflexivity.
Qed.

Lemma quiet_load (l : loc) : quiet (load l).
Proof. intros w. unfold load. destruct (heap w !! l); apply grows_refl. Qed.

Lemma quiet_bind {A B} (m : M A) (k : A -> M B) :
  quiet m -> (forall a, quiet (k a)) -> quiet (bind m k).
Proof.
  intros Hm Hk w. specialize (Hm w). unfold bind.
  destruct (m w) as [[a|e|s] w1]; cbn [snd] in *; try exact Hm.
  eapply grows_trans; [exact Hm | apply Hk].
Qed.

Lemma quiet_try_except {A} (body : M A) (handler : exn -> M A) :
  quiet body -> (forall e, quiet (handler e)) -> quiet (try_except body handler).
Proof.
  intros Hb Hh w. specialize (Hb w). unfold try_except.
  destruct (body w) as [[a|e|s] w1]; cbn [snd] in *; try exact Hb.
  eapply grows_trans; [exact Hb | apply Hh].
Qed.

Lemma quiet_np_array (rows : list (list Q)) : quiet (np_array rows).
Proof.
  unfold np_array. destruct rows as [|r rs]; [apply quiet_alloc|].
  destruct (same_width r (r :: rs)); [apply quiet_alloc | apply quiet_raise].
Qed.

Section QuietPipeline.
Context {R : Rounding} (L : Libraries).

Lemma quiet_normalize_projection (points : loc) (scale : Q) :
  quiet (normalize_projection points scale).
Proof.
  intros w. destruct (normalize_projection_grows w points scale) as [ext ->].
  exists ext, []. cbn [set_heap heap stdout files]. rewrite app_nil_r. reflexivity.
Qed.

Lemma quiet_np_len (x : loc) : quiet (np_len x).
Proof.
  unfold np_len. apply quiet_bind; [apply quiet_load|].
  intros [u|m]; apply quiet_ret.
Qed.

Lemma quiet_fit_transform algorithm (e : loc) : quiet (fit_transform algorithm e).
Proof.
  unfold fit_transform. apply quiet_bind; [apply quiet_load|].
  intros [u|X]; [apply quiet_raise|].
  apply quiet_bind; [apply quiet_lift | intros Y; apply quiet_alloc].
Qed.

Lemma quiet_compute_projections (e : loc) : quiet (compute_projections L e).
Proof.
  unfold compute_projections.
  repeat first
    [ apply quiet_ret
    | apply quiet_print
    | apply quiet_np_len
    | apply quiet_fit_transform
    | apply quiet_normalize_projection
    | apply quiet_bind; [| intros ?] ].
Qed.

Lemma ends_after_grows (output_file : string) w w1 r :
  grows w w1 -> ends output_file w1 r -> ends output_file w r.
Proof.
  intros Hg. destruct r as [[u|e|s] w']; cbn [ends].
  - destruct Hg as (e1 & l1 & ->). intros (out & e2 & l2 & ->).
    exists out, (e1 ++ e2), (l1 ++ l2). cbn [heap stdout files].
    rewrite !app_assoc. reflexivity.
  - apply grows_trans, Hg.
  - apply grows_trans, Hg.
Qed.

Lemma bind_ends {A} (output_file : string) (m : M A) (k : A -> M unit) w :
  quiet m -> (forall a w1, ends output_file w1 (k a w1)) ->
  ends output_file w (bind m k w).
Proof.
  intros Hm Hk. specialize (Hm w). unfold bind.
  destruct (m w) as [[a|e|s] w1]; cbn [snd] in Hm.
  - eapply ends_after_grows; [exact Hm | apply Hk].
  - exact Hm.
  - exact Hm.
Qed.

Lemma export_fetched_ends (output_file : string) (skip_projections : bool)
    (data : GetResult) w :
  ends output_file w (export_fetched L output_file skip_projections data w).
Proof.
  unfold export_fetched. cbv zeta.
  apply bind_ends; [apply quiet_np_array|]. intros arr w1.
  apply bind_ends.
  - destruct (negb skip_projections && (0 <? length (default [] (embeddings data)))).
    + apply quiet_bind; [apply quiet_compute_projections | intros p; apply quiet_ret].
    + apply quiet_bind; [apply quiet_print | intros _; apply quiet_ret].
  - intros out w2. cbv [bind write_json print ends].
    exists out, [], [ "Exported to " +:+ output_file +:+ " ("
                      +:+ file_size_mb L out +:+ " MB)" ].
    cbn [set_files set_stdout heap stdout files]. rewrite app_nil_r. reflexivity.
Qed.

Lemma export_chromadb_ends (chroma_path collection_name output_file : string)
    (limit : option Z) (skip_projections : bool) w :
  ends output_file w
    (export_chromadb L chroma_path collection_name output_file limit
       skip_projections w).
Proof.
  unfold export_chromadb.
  apply bind_ends; [apply quiet_print|]. intros _ w1. cbv zeta.
  apply bind_ends.
  { apply quiet_try_except; [apply quiet_lift|]. intros e.
    apply quiet_bind; [apply quiet_print|]. intros _.
    apply quiet_bind; [apply quiet_print|]. intros _. apply quiet_exit. }
  intros c w2.
  apply bind_ends; [apply quiet_print|]. intros _ w3.
  apply bind_ends; [apply quiet_lift|]. intros data w4.
  apply bind_ends; [apply quiet_print|]. intros _ w5.
  apply export_fetched_ends.
Qed.

End QuietPipeline.


(** ** The pipeline: further properties *)

Lemma np_array_run (rows : list (list Q)) (d : nat) w :
  rows <> [] ->
  Forall (fun row => length row = d) rows ->
  np_array rows w
  = (Return (length (heap w)), set_heap w (heap w ++ [Arr2 (to_floats rows)])).
Proof.
  intros Hne Hd. unfold np_array. destruct rows as [|r rs]; [congruence|].
  assert (Hw : same_width r (r :: rs) = true).
  { apply same_width_Forall. inversion Hd as [|? ? Hr Hrs]; subst.
    eapply Forall_impl; [exact Hd|]. simpl. intros; congruence. }
  rewrite Hw. reflexivity.
Qed.

Lemma build_documents_lookup (data_ids : list string)
    (documents : list (option string)) (embeddings : list (list Q))
    (metadatas : list (option (gmap string scalar)))
    (i : nat) (doc : Document) :
  build_documents data_ids documents embeddings metadatas !! i = Some doc ->
  data_ids !! i = Some (doc_id doc) /\
  doc_text doc = default (Some "") (documents !! i) /\
  doc_embedding doc = default [] (embeddings !! i) /\
  doc_metadata doc = default (Some ∅) (metadatas !! i).
Proof.
  unfold build_documents. rewrite list_lookup_imap.
  destruct (data_ids !! i) as [id|]; [| discriminate].
  simpl. intros H. injection H as <-. cbn [doc_id doc_text doc_embedding doc_metadata].
  repeat split.
  destruct (embeddings !! i) as [e|]; [| reflexivity].
  simpl. rewrite py_float_list. reflexivity.
Qed.

Lemma length_to_floats (E : list (list Q)) : length (to_floats E) = length E.
Proof. unfold to_floats. apply length_fmap. Qed.

Section PipelineFurther.
Context {R : Rounding} (L : Libraries).

(** X6. When each of the three algorithms returns a matrix with rows of one
    length, the driver returns a dict with exactly the keys pca, umap and
    tsne, each holding the normalisation at scale 40 of what its algorithm
    returned; it prints its seven progress lines in order and touches no
    file. *)
Theorem compute_projections_returns (w : world) (e : loc)
    (X P U T : list (list float)) :
  heap w !! e = Some (Arr2 X) ->
  PCA_fit_transform L 3 42 X = Ok P -> normalisable P ->
  UMAP_fit_transform L 3 15 (1 # 10) "cosine" 42 X = Ok U -> normalisable U ->
  TSNE_fit_transform L 3 (perplexity_for (length X)) 42 1000 X = Ok T ->
  normalisable T ->
  exists p w',
    compute_projections L e w = (Return p, w') /\
    p !! "pca" = Some (normalized default_scale P) /\
    p !! "umap" = Some (normalized default_scale U) /\
    p !! "tsne" = Some (normalized default_scale T) /\
    dom p = {["pca"; "umap"; "tsne"]} /\
    stdout w' = stdout w ++ projection_log (length X) /\
    files w' = files w.
Proof.
  intros He HP HnP HU HnU HT HnT.
  destruct (compute_projections_run L w e X P U T He HP HnP HU HnU HT HnT)
    as [ext Hrun].
  eexists _, _. split; [exact Hrun|].
  split; [reflexivity|]. split; [reflexivity|]. split; [reflexivity|].
  split; [| split; reflexivity].
  rewrite !dom_insert_L, dom_empty_L. set_solver.
Qed.

(** X7. However it ends, the driver changes no file, no array that existed
    and no line already printed: it only allocates and prints. *)
Theorem compute_projections_frame (w : world) (e : loc) :
  let w' := snd (compute_projections L e w) in
  files w' = files w /\
  take (length (heap w)) (heap w') = heap w /\
  take (length (stdout w)) (stdout w') = stdout w.
Proof.
  intros w'. subst w'. pose proof (quiet_compute_projections L e w) as Hg.
  split; [apply grows_files, Hg|].
  split; [apply grows_heap, Hg | apply grows_stdout, Hg].
Qed.

End PipelineFurther.

Section ExporterFurther.
Context {R : Rounding} (L : Libraries).

Lemma export_fetched_projected (output_file : string) (data : GetResult)
    (E : list (list Q)) (d : nat) w p w2 :
  embeddings data = Some E -> E <> [] ->
  Forall (fun row => length row = d) E ->
  compute_projections L (length (heap w))
    (set_heap w (heap w ++ [Arr2 (to_floats E)]))
    = (Return p, w2) ->
  export_fetched L output_file false data w
  = (Return tt,
     let out := mkCorpusExport (export_header data)
                  (build_documents (ids data) (default [] (documents data)) E
                     (default [] (metadatas data)))
                  (Some p) in
     mkWorld (heap w2)
       (stdout w2 ++ [ "Exported to " +:+ output_file +:+ " ("
                       +:+ file_size_mb L out +:+ " MB)" ])
       (<[output_file := out]> (files w2))).
Proof.
  intros Hemb Hne Hd Hp. unfold export_fetched. rewrite Hemb.
  cbn [default from_option id]. cbv zeta.
  erewrite bind_return by (eapply np_array_run; eassumption).
  assert (Hpos : (0 <? length E) = true).
  { destruct E; [congruence|]. reflexivity. }
  rewrite Hpos. cbn [negb andb].
  erewrite (bind_return (bind _ _)); [| erewrite bind_return by exact Hp; reflexivity].
  cbv [bind write_json print]. cbn [heap stdout files set_files set_stdout
    out_metadata out_documents].
  unfold export_header. rewrite Hemb. cbn [default from_option id].
  destruct E; [congruence|]. reflexivity.
Qed.

Lemma export_fetched_skipped (output_file : string) (skip_projections : bool)
    (data : GetResult) (d : nat) w :
  Forall (fun row => length row = d) (default [] (embeddings data)) ->
  negb skip_projections && (0 <? length (default [] (embeddings data))) = false ->
  export_fetched L output_file skip_projections data w
  = (Return tt,
     let out := mkCorpusExport (export_header data)
                  (build_documents (ids data) (default [] (documents data))
                     (default [] (embeddings data)) (default [] (metadatas data)))
                  None in
     mkWorld
       (heap w ++ [match default [] (embeddings data) with
                   | [] => Arr1 []
                   | E => Arr2 (to_floats E)
                   end])
       (stdout w ++ [ "Skipping projection computation.";
                      "Exported to " +:+ output_file +:+ " ("
                        +:+ file_size_mb L out +:+ " MB)" ])
       (<[output_file := out]> (files w))).
Proof.
  intros Hd Hcond. unfold export_fetched. cbv zeta. rewrite Hcond.
  unfold export_header.
  destruct (default [] (embeddings data)) as [|e0 es] eqn:HE.
  - cbv [np_array bind alloc print ret write_json].
    cbn [heap stdout files set_heap set_files set_stdout].
    rewrite <- !app_assoc. reflexivity.
  - erewrite bind_return
      by (eapply (np_array_run (e0 :: es) d); [discriminate | exact Hd]).
    cbv [bind print ret write_json].
    cbn [heap stdout files set_heap set_files set_stdout].
    rewrite <- !app_assoc. reflexivity.
Qed.

(** X9. A run with projections over a non-empty rectangular embedding
    matrix, on which the three algorithms return matrices with rows of one
    length, returns: the file written holds the header, one document per id
    and the three normalised projections. *)
Theorem export_completes (chroma_path collection_name output_file : string)
    (limit : option Z) (w : world) (c : Collection) (data : GetResult)
    (E : list (list Q)) (P U T : list (list float)) (d : nat) :
  get_collection (PersistentClient L chroma_path) collection_name = Ok c ->
  fetch c limit = Ok data ->
  embeddings data = Some E -> E <> [] ->
  Forall (fun row => length row = d) E ->
  PCA_fit_transform L 3 42 (to_floats E) = Ok P -> normalisable P ->
  UMAP_fit_transform L 3 15 (1 # 10) "cosine" 42 (to_floats E) = Ok U ->
  normalisable U ->
  TSNE_fit_transform L 3 (perplexity_for (length E)) 42 1000 (to_floats E) = Ok T ->
  normalisable T ->
  exists w' out,
    export_chromadb L chroma_path collection_name output_file limit false w
      = (Return tt, w') /\
    files w' = <[output_file := out]> (files w) /\
    out_metadata out = export_header data /\
    doc_id <$> out_documents out = ids data /\
    out_projections out
      = Some (<["tsne" := normalized default_scale T]>
                (<["umap" := normalized default_scale U]>
                   (<["pca" := normalized default_scale P]> ∅))).
Proof.
  intros Hget Hfetch Hemb Hne Hd HP HnP HU HnU HT HnT.
  rewrite (export_chromadb_run L _ _ _ _ _ _ c data Hget Hfetch).
  rewrite <- (length_to_floats E) in HT.
  edestruct (compute_projections_run L) as [ext Hrun];
    [| exact HP | exact HnP | exact HU | exact HnU | exact HT | exact HnT |].
  2:{ erewrite (export_fetched_projected output_file data E d) by eassumption.
      eexists _, _. split; [reflexivity|]. cbv zeta.
      cbn [files heap stdout set_heap set_stdout out_metadata out_documents
           out_projections].
      split; [reflexivity|]. split; [reflexivity|].
      split; [apply build_documents_ids | reflexivity]. }
  heap_lookup.
Qed.

(** X10. With [skip_projections] set, a run over rectangular embeddings
    returns for every number of documents; the file written has no
    "projections" key and the log says that the computation was skipped. *)
Theorem export_skip_returns (chroma_path collection_name output_file : string)
    (limit : option Z) (w : world) (c : Collection) (data : GetResult) (d : nat) :
  get_collection (PersistentClient L chroma_path) collection_name = Ok c ->
  fetch c limit = Ok data ->
  Forall (fun row => length row = d) (default [] (embeddings data)) ->
  exists w' out,
    export_chromadb L chroma_path collection_name output_file limit true w
      = (Return tt, w') /\
    files w' = <[output_file := out]> (files w) /\
    out_projections out = None /\
    out_metadata out = export_header data /\
    doc_id <$> out_documents out = ids data /\
    stdout w' = stdout w ++ export_preamble chroma_path collection_name c data
                  ++ [ "Skipping projection computation.";
                       "Exported to " +:+ output_file +:+ " ("
                         +:+ file_size_mb L out +:+ " MB)" ].
Proof.
  intros Hget Hfetch Hd.
  rewrite (export_chromadb_run L _ _ _ _ _ _ c data Hget Hfetch).
  rewrite (export_fetched_skipped output_file true data d _ Hd eq_refl).
  eexists _, _. split; [reflexivity|]. cbv zeta.
  cbn [files heap stdout set_heap set_stdout out_metadata out_documents
       out_projections].
  split; [reflexivity|]. split; [reflexivity|]. split; [reflexivity|].
  split; [apply build_documents_ids|].
  rewrite <- !app_assoc. reflexivity.
Qed.

End ExporterFurther.

Section ExporterEdges.
Context {R : Rounding} (L : Libraries).

(** X11. With t-SNE's check that the perplexity is below the number of
    samples, an export with projections of one to five documents never
    returns and writes nothing: line 73 yields perplexity 5 for them. *)
Theorem export_small_corpus_fails (chroma_path collection_name output_file : string)
    (limit : option Z) (w : world) (c : Collection) (data : GetResult)
    (E : list (list Q)) :
  tsne_validates L ->
  get_collection (PersistentClient L chroma_path) collection_name = Ok c ->
  fetch c limit = Ok data ->
  embeddings data = Some E ->
  1 <= length E <= 5 ->
  (forall u, fst (export_chromadb L chroma_path collection_name output_file limit
                    false w) <> Return u) /\
  files (snd (export_chromadb L chroma_path collection_name output_file limit
                false w)) = files w.
Proof.
  intros Hval Hget Hfetch Hemb HN.
  assert (Hno : forall u, fst (export_chromadb L chroma_path collection_name
                                 output_file limit false w) <> Return u).
  { intros u Hu.
    destruct (export_chromadb L chroma_path collection_name output_file limit
                false w) as [o w'] eqn:Hrun.
    cbn [fst] in Hu. subst o.
    rewrite (export_chromadb_run L _ _ _ _ _ _ c data Hget Hfetch) in Hrun.
    apply export_fetched_inv in Hrun as (out & _ & _ & _ & _ & Hproj).
    rewrite Hemb in Hproj. cbn [default from_option id] in Hproj.
    destruct Hproj as [[Hcond _] | (_ & arr & w1 & w2 & p & Harr & Hp & _)].
    { cbn [negb andb] in Hcond. apply Nat.ltb_ge in Hcond. lia. }
    apply (compute_projections_inv L _ _ (to_floats E)) in Hp
      as (P & U & T & _ & _ & _ & _ & _ & HT & _); [| exact Harr].
    destruct (Hval 3 (perplexity_for (length (to_floats E))) 42%Z 1000 (to_floats E))
      as [msg Hmsg].
    { rewrite length_to_floats. unfold perplexity_for. lia. }
    congruence. }
  split; [exact Hno|].
  pose proof (export_chromadb_ends L chroma_path collection_name output_file limit
                false w) as H.
  destruct (export_chromadb L chroma_path collection_name output_file limit
              false w) as [[u|e|s] w']; cbn [ends fst snd] in *.
  - exfalso. apply (Hno u). reflexivity.
  - apply grows_files, H.
  - apply grows_files, H.
Qed.

(** X12. In the file a run writes, the documents carry the ids in the order
    of the store; document i has the text and the metadata the store gave
    at position i, also when that is [None], and the empty string and the
    empty mapping where the store gave a shorter list or no list
    ([None]). *)
Theorem export_document_fields (chroma_path collection_name output_file : string)
    (limit : option Z) (skip_projections : bool) (w w' : world)
    (c : Collection) (data : GetResult) :
  get_collection (PersistentClient L chroma_path) collection_name = Ok c ->
  fetch c limit = Ok data ->
  export_chromadb L chroma_path collection_name output_file limit
    skip_projections w = (Return tt, w') ->
  exists out,
    files w' !! output_file = Some out /\
    doc_id <$> out_documents out = ids data /\
    (forall i doc, out_documents out !! i = Some doc ->
       doc_text doc = default (Some "") (default [] (documents data) !! i) /\
       doc_metadata doc = default (Some ∅) (default [] (metadatas data) !! i) /\
       doc_embedding doc = default [] (default [] (embeddings data) !! i)) /\
    (forall i doc texts, out_documents out !! i = Some doc ->
       documents data = Some texts -> texts !! i = Some None ->
       doc_text doc = None) /\
    (forall i doc metas, out_documents out !! i = Some doc ->
       metadatas data = Some metas -> metas !! i = Some None ->
       doc_metadata doc = None) /\
    (documents data = None ->
       Forall (fun doc => doc_text doc = Some "") (out_documents out)) /\
    (metadatas data = None ->
       Forall (fun doc => doc_metadata doc = Some ∅) (out_documents out)).
Proof.
  intros Hget Hfetch Hrun.
  rewrite (export_chromadb_run L _ _ _ _ _ _ c data Hget Hfetch) in Hrun.
  apply export_fetched_inv in Hrun as (out & Hfile & _ & _ & Hdocs & _).
  exists out. split; [exact Hfile|]. rewrite Hdocs.
  split; [apply build_documents_ids|].
  split.
  { intros i doc Hdoc.
    apply build_documents_lookup in Hdoc as (_ & Ht & He & Hm). auto. }
  split.
  { intros i doc texts Hdoc Hsome Hi.
    apply build_documents_lookup in Hdoc as (_ & Ht & _ & _).
    rewrite Ht, Hsome. cbn [default from_option id]. rewrite Hi. reflexivity. }
  split.
  { intros i doc metas Hdoc Hsome Hi.
    apply build_documents_lookup in Hdoc as (_ & _ & _ & Hm).
    rewrite Hm, Hsome. cbn [default from_option id]. rewrite Hi. reflexivity. }
  split.
  - intros Hnone. apply Forall_lookup. intros i doc Hdoc.
    apply build_documents_lookup in Hdoc as (_ & Ht & _ & _).
    rewrite Ht, Hnone. reflexivity.
  - intros Hnone. apply Forall_lookup. intros i doc Hdoc.
    apply build_documents_lookup in Hdoc as (_ & _ & _ & Hm).
    rewrite Hm, Hnone. reflexivity.
Qed.

(** X13. In the file a run writes, [embedding_dim] is the length of every
    exported embedding that has a source row: [np.array] has rejected
    embeddings of different lengths before anything is written.  Documents
    beyond the last source row have the empty embedding. *)
Theorem export_embedding_dim (chroma_path collection_name output_file : string)
    (limit : option Z) (skip_projections : bool) (w w' : world)
    (c : Collection) (data : GetResult) :
  get_collection (PersistentClient L chroma_path) collection_name = Ok c ->
  fetch c limit = Ok data ->
  export_chromadb L chroma_path collection_name output_file limit
    skip_projections w = (Return tt, w') ->
  exists out,
    files w' !! output_file = Some out /\
    forall i doc, out_documents out !! i = Some doc ->
      if decide (i < length (default [] (embeddings data)))
      then length (doc_embedding doc) = meta_embedding_dim (out_metadata out)
      else doc_embedding doc = [].
Proof.
  intros Hget Hfetch Hrun.
  rewrite (export_chromadb_run L _ _ _ _ _ _ c data Hget Hfetch) in Hrun.
  assert (Hrect : Forall (fun row => length row
                            = n_features (default [] (embeddings data)))
                    (default [] (embeddings data))).
  { revert Hrun. unfold export_fetched. cbv zeta. intros Hrun.
    apply bind_inv_return in Hrun as (arr & w1 & Harr & _).
    revert Harr. unfold np_array.
    destruct (default [] (embeddings data)) as [|e0 es]; [constructor|].
    destruct (same_width e0 (e0 :: es)) eqn:Hw; [| discriminate].
    intros _. apply same_width_Forall in Hw. exact Hw. }
  apply export_fetched_inv in Hrun as (out & Hfile & _ & Hdim & Hdocs & _).
  exists out. split; [exact Hfile|]. intros i doc Hdoc.
  rewrite Hdocs in Hdoc.
  apply build_documents_lookup in Hdoc as (_ & _ & He & _).
  rewrite He, Hdim.
  destruct (decide (i < length (default [] (embeddings data)))) as [Hi|Hi].
  - destruct (lookup_lt_is_Some_2 _ _ Hi) as [e Hlook]. rewrite Hlook.
    cbn [default from_option id].
    exact (proj1 (Forall_lookup _ _) Hrect i e Hlook).
  - rewrite (proj2 (lookup_ge_None _ _)) by lia. reflexivity.
Qed.

(** X14. Documents follow the ids and projections follow the embeddings:
    the file a run writes has one document per id and a count equal to the
    number of ids, while every projection has one row per embedding, also
    when the store returned lists of different lengths.  The libraries are
    assumed to return one row per input row. *)
Theorem export_rows_follow_sources (chroma_path collection_name output_file : string)
    (limit : option Z) (skip_projections : bool) (w w' : world)
    (c : Collection) (data : GetResult) :
  keeps_rows (PCA_fit_transform L 3 42) ->
  keeps_rows (UMAP_fit_transform L 3 15 (1 # 10) "cosine" 42) ->
  keeps_rows (TSNE_fit_transform L 3
                (perplexity_for (length (default [] (embeddings data)))) 42 1000) ->
  get_collection (PersistentClient L chroma_path) collection_name = Ok c ->
  fetch c limit = Ok data ->
  export_chromadb L chroma_path collection_name output_file limit
    skip_projections w = (Return tt, w') ->
  exists out,
    files w' !! output_file = Some out /\
    length (out_documents out) = length (ids data) /\
    meta_count (out_metadata out) = length (ids data) /\
    forall p m rows, out_projections out = Some p -> p !! m = Some rows ->
      length rows = length (default [] (embeddings data)).
Proof.
  intros Kp Ku Kt Hget Hfetch Hrun.
  rewrite (export_chromadb_run L _ _ _ _ _ _ c data Hget Hfetch) in Hrun.
  apply export_fetched_inv in Hrun as (out & Hfile & Hcount & _ & Hdocs & Hproj).
  exists out. split; [exact Hfile|].
  split; [rewrite Hdocs; apply build_documents_length|].
  split; [exact Hcount|].
  destruct Hproj as [[_ Hnone] | (_ & arr & w1 & w2 & p' & Harr & Hp & Hsome)].
  { intros p m rows Hout Hm. congruence. }
  apply (compute_projections_inv L _ _ (to_floats (default [] (embeddings data)))) in Hp
    as (P & U & T & pca & umap & tsne & HP & HU & HT & Hpeq & Hl1 & Hl2 & Hl3);
    [| exact Harr].
  rewrite length_to_floats in HT.
  apply Kp in HP. apply Ku in HU. apply Kt in HT.
  rewrite length_to_floats in HP, HU, HT.
  intros p m rows Hout Hm.
  assert (p = p') as -> by congruence.
  rewrite Hpeq in Hm.
  apply lookup_insert_Some in Hm as [[_ <-] | [_ Hm]]; [lia|].
  apply lookup_insert_Some in Hm as [[_ <-] | [_ Hm]]; [lia|].
  apply lookup_insert_Some in Hm as [[_ <-] | [_ Hm]]; [lia|].
  rewrite lookup_empty in Hm. discriminate.
Qed.

(** X15. An exception of [collection.get] is not caught: the run ends with
    it after two lines of output, and nothing is written. *)
Theorem export_fetch_error (chroma_path collection_name output_file : string)
    (limit : option Z) (skip_projections : bool) (w : world)
    (c : Collection) (err : exn) :
  get_collection (PersistentClient L chroma_path) collection_name = Ok c ->
  fetch c limit = Err err ->
  export_chromadb L chroma_path collection_name output_file limit
    skip_projections w
  = (Raise err,
     mkWorld (heap w)
       (stdout w ++
          [ "Connecting to ChromaDB at " +:+ chroma_path +:+ "...";
            "Found collection '" +:+ collection_name +:+ "' with "
              +:+ pretty (coll_count c) +:+ " documents" ])
       (files w)).
Proof.
  intros Hget Hfetch. unfold export_chromadb.
  rewrite bind_print. cbv zeta. rewrite Hget.
  erewrite bind_return by reflexivity.
  rewrite bind_print. rewrite Hfetch.
  cbv [bind lift raise]. cbn [heap stdout files set_stdout].
  rewrite <- !app_assoc. reflexivity.
Qed.


(** X17. The perplexity of line 73 lies between 5 and 30, never decreases
    with the number of samples, is 5 below 30 samples and 30 from 150
    samples on, and is below the number of samples exactly from six samples
    on. *)
Theorem perplexity_range (n k : nat) :
  (5 <= perplexity_for n <= 30)%Z /\
  (perplexity_for n <= perplexity_for (n + k))%Z /\
  (perplexity_for n = 5%Z <-> n < 30) /\
  (perplexity_for n = 30%Z <-> 150 <= n) /\
  ((perplexity_for n < Z.of_nat n)%Z <-> 6 <= n).
Proof.
  unfold perplexity_for.
  repeat split; zify; Z.div_mod_to_equations; lia.
Qed.

End ExporterEdges.

Section DriverErrors.
Context {R : Rounding} (L : Libraries).

(** X18. The driver has no handler around the algorithms: when t-SNE raises
    after PCA and UMAP went through, the driver ends with t-SNE's exception,
    the two projections already computed are lost, and the log stops before
    "t-SNE done.". *)
Theorem compute_projections_tsne_error (w : world) (e : loc)
    (X P U : list (list float)) (err : exn) :
  heap w !! e = Some (Arr2 X) ->
  PCA_fit_transform L 3 42 X = Ok P -> normalisable P ->
  UMAP_fit_transform L 3 15 (1 # 10) "cosine" 42 X = Ok U -> normalisable U ->
  TSNE_fit_transform L 3 (perplexity_for (length X)) 42 1000 X = Err err ->
  exists w',
    compute_projections L e w = (Raise err, w') /\
    stdout w' = stdout w ++ take 6 (projection_log (length X)) /\
    files w' = files w.
Proof.
  intros He HP HnP HU HnU HT.
  destruct (compute_projections_tsne_raise L w e X P U err He HP HnP HU HnU HT)
    as [ext Hrun].
  eexists. split; [exact Hrun|]. split; reflexivity.
Qed.

End DriverErrors.

Lemma compute_projections_tsne_error_witness :
  exists w',
    compute_projections (R := binary64) sample_libraries 0
      (mkWorld [Arr2 (to_floats (take 4 sample_embeddings))] [] ∅)
    = (Raise (ValueError "perplexity must be less than n_samples"), w') /\
    stdout w' = [] ++ take 6 (projection_log (length (take 4 sample_embeddings))) /\
    files w' = ∅.
Proof.
  apply (compute_projections_tsne_error (R := binary64) sample_libraries
           (mkWorld [Arr2 (to_floats (take 4 sample_embeddings))] [] ∅) 0
           (to_floats (take 4 sample_embeddings))
           (leading_components 3 (to_floats (take 4 sample_embeddings)))
           (leading_components 3 (to_floats (take 4 sample_embeddings)))
           (ValueError "perplexity must be less than n_samples"));
    first [ reflexivity | vm_compute; repeat constructor ].
Defined.

(** ** The further properties on the sample stores *)

Lemma sample_tsne_validates : tsne_validates sample_libraries.
Proof.
  intros k perp seed it X Hp. eexists. simpl. unfold sample_TSNE.
  destruct (Z.ltb_spec perp (Z.of_nat (length X))); [lia | reflexivity].
Qed.

Lemma leading_components_sample :
  normalisable (leading_components 3 (to_floats sample_embeddings)).
Proof. vm_compute. repeat constructor. Qed.

Lemma compute_projections_returns_witness :
  exists p w',
    compute_projections (R := binary64) sample_libraries 0 loaded_world
      = (Return p, w') /\
    p !! "pca" = Some (normalized (R := binary64) default_scale
                         (leading_components 3 (to_floats sample_embeddings))) /\
    p !! "umap" = Some (normalized (R := binary64) default_scale
                          (leading_components 3 (to_floats sample_embeddings))) /\
    p !! "tsne" = Some (normalized (R := binary64) default_scale
                          (leading_components 3 (to_floats sample_embeddings))) /\
    dom p = {["pca"; "umap"; "tsne"]} /\
    stdout w' = stdout loaded_world ++ projection_log (length sample_embeddings) /\
    files w' = files loaded_world.
Proof.
  apply (compute_projections_returns (R := binary64) sample_libraries
           loaded_world 0 (to_floats sample_embeddings)
           (leading_components 3 (to_floats sample_embeddings))
           (leading_components 3 (to_floats sample_embeddings))
           (leading_components 3 (to_floats sample_embeddings)));
    first [reflexivity | exact leading_components_sample].
Defined.

Lemma export_completes_witness :
  exists w' out,
    sample_run "conversations" None false = (Return tt, w') /\
    files w' = <["public/data/claude-memory.json" := out]> (files empty_world) /\
    out_metadata out = export_header sample_data /\
    doc_id <$> out_documents out = ids sample_data /\
    out_projections out
      = Some (<["tsne" := normalized (R := binary64) default_scale
                            (leading_components 3 (to_floats sample_embeddings))]>
                (<["umap" := normalized (R := binary64) default_scale
                               (leading_components 3 (to_floats sample_embeddings))]>
                   (<["pca" := normalized (R := binary64) default_scale
                                 (leading_components 3 (to_floats sample_embeddings))]> ∅))).
Proof.
  apply (export_completes (R := binary64) sample_libraries
           "~/.claude-memory/chroma" "conversations" "public/data/claude-memory.json"
           None empty_world sample_collection sample_data sample_embeddings
           (leading_components 3 (to_floats sample_embeddings))
           (leading_components 3 (to_floats sample_embeddings))
           (leading_components 3 (to_floats sample_embeddings)) 4);
    first [ reflexivity | discriminate | exact leading_components_sample
          | repeat constructor ].
Defined.

Lemma export_skip_returns_witness :
  exists w' out,
    sample_run "conversations" (Some 1%Z) true = (Return tt, w') /\
    files w' = <["public/data/claude-memory.json" := out]> (files empty_world) /\
    out_projections out = None /\
    out_metadata out = export_header (limit_data 1 sample_data) /\
    doc_id <$> out_documents out = ids (limit_data 1 sample_data) /\
    stdout w' = stdout empty_world
                  ++ export_preamble "~/.claude-memory/chroma" "conversations"
                       sample_collection (limit_data 1 sample_data)
                  ++ [ "Skipping projection computation.";
                       "Exported to " +:+ "public/data/claude-memory.json" +:+ " ("
                         +:+ file_size_mb sample_libraries out +:+ " MB)" ].
Proof.
  apply (export_skip_returns (R := binary64) sample_libraries
           "~/.claude-memory/chroma" "conversations" "public/data/claude-memory.json"
           (Some 1%Z) empty_world sample_collection (limit_data 1 sample_data) 4);
    first [ reflexivity | repeat constructor ].
Defined.

Lemma export_small_corpus_fails_witness :
  (forall u, fst (sample_run "conversations" (Some 3%Z) false) <> Return u) /\
  files (snd (sample_run "conversations" (Some 3%Z) false)) = files empty_world.
Proof.
  apply (export_small_corpus_fails (R := binary64) sample_libraries
           "~/.claude-memory/chroma" "conversations" "public/data/claude-memory.json"
           (Some 3%Z) empty_world sample_collection (limit_data 3 sample_data)
           (take 3 sample_embeddings) sample_tsne_validates);
    first [ reflexivity | simpl; lia ].
Defined.

Lemma export_document_fields_witness :
  exists out,
    files (snd sparse_run) !! "public/data/claude-memory.json" = Some out /\
    doc_id <$> out_documents out = ids sparse_data /\
    (forall i doc, out_documents out !! i = Some doc ->
       doc_text doc = default (Some "") (default [] (documents sparse_data) !! i) /\
       doc_metadata doc
       = default (Some ∅) (default [] (metadatas sparse_data) !! i) /\
       doc_embedding doc = default [] (default [] (embeddings sparse_data) !! i)) /\
    (forall i doc texts, out_documents out !! i = Some doc ->
       documents sparse_data = Some texts -> texts !! i = Some None ->
       doc_text doc = None) /\
    (forall i doc metas, out_documents out !! i = Some doc ->
       metadatas sparse_data = Some metas -> metas !! i = Some None ->
       doc_metadata doc = None) /\
    (documents sparse_data = None ->
       Forall (fun doc => doc_text doc = Some "") (out_documents out)) /\
    (metadatas sparse_data = None ->
       Forall (fun doc => doc_metadata doc = Some ∅) (out_documents out)).
Proof.
  apply (export_document_fields (R := binary64) skewed_libraries
           "~/.claude-memory/chroma" "sparse" "public/data/claude-memory.json"
           None true empty_world (snd sparse_run) sparse_collection sparse_data).
  - reflexivity.
  - reflexivity.
  - vm_compute. reflexivity.
Defined.

(** The documents of the sparse store as written: a text that is [None]
    stays [None], a text the store has no position for is the empty
    string. *)
Example sparse_run_sample :
  (fun out => (fun doc => (doc_id doc, doc_text doc, doc_metadata doc))
                <$> out_documents out)
    <$> files (snd sparse_run) !! "public/data/claude-memory.json"
  = Some [ ("a", Some "alpha", None);
           ("b", None, Some {["source" := SStr "chat"]});
           ("c", Some "", Some ∅) ].
Proof. vm_compute. reflexivity. Qed.

Lemma export_embedding_dim_witness :
  exists out,
    files (snd (skewed_run true)) !! "public/data/claude-memory.json" = Some out /\
    forall i doc, out_documents out !! i = Some doc ->
      if decide (i < length (default [] (embeddings skewed_data)))
      then length (doc_embedding doc) = meta_embedding_dim (out_metadata out)
      else doc_embedding doc = [].
Proof.
  apply (export_embedding_dim (R := binary64) skewed_libraries
           "~/.claude-memory/chroma" "skewed" "public/data/claude-memory.json"
           None true empty_world (snd (skewed_run true)) skewed_collection skewed_data).
  - reflexivity.
  - reflexivity.
  - vm_compute. reflexivity.
Defined.

Lemma export_rows_follow_sources_witness :
  exists out,
    files (snd (skewed_run false)) !! "public/data/claude-memory.json" = Some out /\
    length (out_documents out) = length (ids skewed_data) /\
    meta_count (out_metadata out) = length (ids skewed_data) /\
    forall p m rows, out_projections out = Some p -> p !! m = Some rows ->
      length rows = length (default [] (embeddings skewed_data)).
Proof.
  apply (export_rows_follow_sources (R := binary64) skewed_libraries
           "~/.claude-memory/chroma" "skewed" "public/data/claude-memory.json"
           None false empty_world (snd (skewed_run false)) skewed_collection
           skewed_data).
  - apply sample_PCA_keeps_rows.
  - apply sample_UMAP_keeps_rows.
  - apply sample_TSNE_keeps_rows.
  - reflexivity.
  - reflexivity.
  - vm_compute. reflexivity.
Defined.

(** On the skewed store: five documents, six rows in each projection. *)
Example skewed_run_sample :
  (fun out => (length (out_documents out),
               (fun p => length <$> p !! "pca") <$> out_projections out))
    <$> files (snd (skewed_run false)) !! "public/data/claude-memory.json"
  = Some (5, Some (Some 6)).
Proof. vm_compute. reflexivity. Qed.

Lemma export_fetch_error_witness :
  sample_run "conversations" (Some (-1)%Z) false
  = (Raise (ValueError "limit must be non-negative"),
     mkWorld (heap empty_world)
       (stdout empty_world ++
          [ "Connecting to ChromaDB at " +:+ "~/.claude-memory/chroma" +:+ "...";
            "Found collection '" +:+ "conversations" +:+ "' with "
              +:+ pretty (coll_count sample_collection) +:+ " documents" ])
       (files empty_world)).
Proof.
  apply (export_fetch_error (R := binary64) sample_libraries
           "~/.claude-memory/chroma" "conversations" "public/data/claude-memory.json"
           (Some (-1)%Z) false empty_world sample_collection
           (ValueError "limit must be non-negative"));
    reflexivity.
Defined.

